(** * TCLab PI controller: a shallow embedding of [TCLab_Demo_PI.py]

    The development follows the Python source statement by statement.

    - Python [float] is IEEE-754 binary64: it is modelled by Rocq's primitive
      [float], so rounding, infinities and NaN behave as they do in the
      program.
    - The device driver ([tclab]), [matplotlib] and [time.sleep] are external
      collaborators.  Each call to one of them is answered by a [world], an
      oracle that either returns a value or raises; every call and its
      outcome is appended to a trace.
    - Python's exceptions are threaded through a small state-and-error monad;
      [try/except/finally] are combinators of that monad. *)

From Stdlib Require Import ZArith List String Ascii Bool Lia Floats.
From stdpp Require Import list.
Import ListNotations.

Set Warnings "-inexact-float".
Set Default Proof Using "Type".

(** ** Python values and exceptions *)

Module Py.

(** The exceptions the program can meet.  [KeyboardInterrupt] and
    [SystemExit] derive from [BaseException] only; the others derive from
    [Exception]. *)
Inductive exn : Type :=
| ValueError
| OverflowError
| ZeroDivisionError
| IndexError
| EOFError
| MemoryError
| DriverError (what : string)
| KeyboardInterrupt
| SystemExit.

Definition is_Exception (e : exn) : bool :=
  match e with
  | KeyboardInterrupt | SystemExit => false
  | _ => true
  end.

Inductive result (A : Type) : Type :=
| Normal (a : A)
| Raised (e : exn).
Arguments Normal {A} a.
Arguments Raised {A} e.

(** [float(i)] for a Python [int]: round to nearest, ties to even. *)
Definition float_of_int (z : Z) : float :=
  SF2Prim (binary_normalize prec emax z 0 false).

(** The implicit conversion of [int * float]: [OverflowError] when the
    integer is too large for a float. *)
Definition int_to_float (z : Z) : result float :=
  let f := float_of_int z in
  if PrimFloat.is_infinity f then Raised OverflowError else Normal f.

(** [int(x)] for a float: truncation toward zero; [ValueError] on NaN,
    [OverflowError] on an infinity. *)
Definition int_of_float (x : float) : result Z :=
  match Prim2SF x with
  | S754_nan => Raised ValueError
  | S754_infinity _ => Raised OverflowError
  | S754_zero _ => Normal 0%Z
  | S754_finite s m e => Normal (cond_Zopp s (Z.shiftl (Zpos m) e))
  end.

(** [math.floor(x)], the integer the specification speaks of. *)
Definition floor_of_float (x : float) : result Z :=
  match Prim2SF x with
  | S754_nan => Raised ValueError
  | S754_infinity _ => Raised OverflowError
  | S754_zero _ => Normal 0%Z
  | S754_finite s m e => Normal (Z.shiftl (cond_Zopp s (Zpos m)) e)
  end.

(** [a / b] on Python floats raises on a zero divisor. *)
Definition truediv (a b : float) : result float :=
  if PrimFloat.eqb b 0 then Raised ZeroDivisionError else Normal (a / b)%float.

(** The builtins [min(a, b)] and [max(a, b)]. *)
Definition py_min (a b : float) : float := if PrimFloat.ltb b a then b else a.
Definition py_max (a b : float) : float := if PrimFloat.ltb a b then b else a.

(** The chained comparison [lo < x < hi]. *)
Definition strictly_between (lo x hi : float) : bool :=
  PrimFloat.ltb lo x && PrimFloat.ltb x hi.

(** The chained comparison [lo <= x <= hi]. *)
Definition between (lo x hi : float) : bool :=
  PrimFloat.leb lo x && PrimFloat.leb x hi.

End Py.

(** ** The part of numpy the controller uses *)

Module Np.

Import Py.

(** [np.zeros(n)], an array of [n] float64 zeros.  A negative length, and
    a size of more than 2^63 - 1 bytes, are refused with [ValueError].
    Below that the array is there when the machine has the memory for it:
    [shortage] is the exception of an allocation that fails
    ([MemoryError]). *)
Definition zeros (shortage : option exn) (n : Z) : result (list float) :=
  if (n <? 0)%Z then Raised ValueError
  else if (2 ^ 63 - 1 <? 8 * n)%Z then Raised ValueError
  else match shortage with
       | Some e => Raised e
       | None => Normal (replicate (Z.to_nat n) 0%float)
       end.

(** numpy's element-wise maximum and minimum as [clip] uses them: a NaN first
    operand is returned as it is. *)
Definition clip_max (a b : float) : float :=
  if PrimFloat.is_nan a then a else if PrimFloat.ltb b a then a else b.
Definition clip_min (a b : float) : float :=
  if PrimFloat.is_nan a then a else if PrimFloat.ltb a b then a else b.

(** [np.clip(x, lo, hi)] is [minimum (maximum x lo) hi]. *)
Definition clip (x lo hi : float) : float := clip_min (clip_max x lo) hi.

(** The reductions [np.min] and [np.max] over a non-empty array fold
    numpy's [minimum] and [maximum]; a NaN element propagates. *)
Definition minimum (a b : float) : float :=
  if PrimFloat.is_nan a then a else if PrimFloat.ltb a b then a else b.
Definition maximum (a b : float) : float :=
  if PrimFloat.is_nan a then a else if PrimFloat.ltb b a then a else b.

Definition amin (l : list float) : result float :=
  match l with
  | [] => Raised ValueError
  | x :: r => Normal (fold_left minimum r x)
  end.
Definition amax (l : list float) : result float :=
  match l with
  | [] => Raised ValueError
  | x :: r => Normal (fold_left maximum r x)
  end.

(** [a[i] = v] and [a[i]] on a one-dimensional array, [0 <= i]. *)
Definition setitem (a : list float) (i : nat) (v : float) : result (list float) :=
  if (i <? length a)%nat then Normal (<[i := v]> a) else Raised IndexError.
Definition getitem (a : list float) (i : nat) : result float :=
  match a !! i with
  | Some v => Normal v
  | None => Raised IndexError
  end.

End Np.

(** ** The external world: device driver, plotting, console, clock *)

Module World.

Import Py.

(** What the program prints.  The numbers formatted into a message are not
    represented; the exception reported by the handler is. *)
Inductive message : Type :=
| Connecting
| Connected
| InitialTemperature
| RunComplete
| ErrorOccurred (e : exn)
| EnsuringClosed.

(** The calls the controller makes to its collaborators.  [plt m] is a
    matplotlib call whose result the program does not use, named by the
    method called; [ax1_get_ylim k] is [ax1.get_ylim()[k]].  [np_zeros n]
    is the request for the memory of an array of [n] floats: the world
    grants or refuses it, and it is not recorded as an event. *)
Inductive call : Type :=
| print (m : message)
| plt (method : string)
| ax1_set_ylim (lo hi : float)
| ax1_get_ylim (k : nat)
| set_data (line : string) (xs ys : list float)
| plt_pause (d : float)
| time_sleep (d : float)
| tclab_TCLab
| lab_Q1 (v : float)
| lab_Q2 (v : float)
| lab_LED (v : float)
| lab_T1
| lab_close
| np_zeros (n : Z).

Inductive outcome : Type :=
| Returns (v : float)
| Raises (e : exn).

Definition event : Type := call * outcome.

(** The world answers the [k]-th external call of a run. *)
Definition world : Type := nat -> call -> outcome.

(** The device handle bound to [lab]. *)
Variant handle : Type := TCLab.

(** The local variables of [run_pi_controller] that outlive a statement. *)
Record locals : Type := mkLocals {
  t : list float;
  T1 : list float;
  T_sp_array : list float;
  Q1 : list float;
  integral_error : float;
  lab : option handle
}.

Record machine : Type := mkMachine {
  vars : locals;
  trace : list event
}.

Definition initial : machine :=
  {| vars := {| t := []; T1 := []; T_sp_array := []; Q1 := [];
                integral_error := 0; lab := None |};
     trace := [] |}.

End World.

(** ** The monad of the embedding *)

Module Run.

Import Py World.

Definition M (A : Type) : Type := machine -> machine * result A.

Definition ret {A} (a : A) : M A := fun s => (s, Normal a).

Definition bind {A B} (m : M A) (k : A -> M B) : M B :=
  fun s =>
    match m s with
    | (s', Normal a) => k a s'
    | (s', Raised e) => (s', Raised e)
    end.

Definition lift {A} (r : result A) : M A := fun s => (s, r).

Definition get : M locals := fun s => (s, Normal (vars s)).

Definition modify (f : locals -> locals) : M unit :=
  fun s => ({| vars := f (vars s); trace := trace s |}, Normal tt).

Definition log (ev : event) (s : machine) : machine :=
  {| vars := vars s; trace := trace s ++ [ev] |}.

(** An external call: the world answers, the answer is recorded. *)
Definition perform (w : world) (c : call) : M float :=
  fun s =>
    match w (length (trace s)) c with
    | Returns v => (log (c, Returns v) s, Normal v)
    | Raises e => (log (c, Raises e) s, Raised e)
    end.

(** Console output is taken not to fail: it is recorded and returns. *)
Definition say (m : message) : M unit :=
  fun s => (log (print m, Returns 0) s, Normal tt).

Fixpoint for_each {A} (l : list A) (body : A -> M unit) : M unit :=
  match l with
  | [] => ret tt
  | x :: l' => bind (body x) (fun _ => for_each l' body)
  end.

(** [for i in range(n)]. *)
Definition for_range (n : nat) (body : nat -> M unit) : M unit :=
  for_each (seq 0 n) body.

(** [try: body  except Exception as e: handler e  finally: final].  An
    exception that is not an [Exception] stays pending across [final]; an
    exception raised by [final] replaces whatever was pending. *)
Definition try_except_finally (body : M unit) (handler : exn -> M unit)
    (final : M unit) : M unit :=
  fun s =>
    let (s1, r1) := body s in
    let (s2, r2) :=
      match r1 with
      | Raised e => if is_Exception e then handler e s1 else (s1, Raised e)
      | Normal a => (s1, Normal a)
      end in
    let (s3, r3) := final s2 in
    match r3 with
    | Raised e => (s3, Raised e)
    | Normal _ => (s3, r2)
    end.

(** [try: body  except: pass]: a bare [except] catches everything. *)
Definition try_except_pass (body : M unit) : M unit :=
  fun s => (fst (body s), Normal tt).

(** *** Properties of computations

    [invariant I m]: whatever [m] does, and however it ends, it takes a
    machine that satisfies [I] to one that does.  [emits P m]: the events
    [m] appends to the trace all satisfy [P].  [keeps J m]: [m] preserves
    the property [J] of the local variables.  [raises_only E m]: an
    exception [m] ends with satisfies [E]. *)

Definition invariant {A} (I : machine -> Prop) (m : M A) : Prop :=
  forall s, I s -> I (fst (m s)).

Definition extends (P : event -> Prop) (tr0 : list event) (s : machine) : Prop :=
  exists evs, trace s = tr0 ++ evs /\ Forall P evs.

Definition emits {A} (P : event -> Prop) (m : M A) : Prop :=
  forall tr0, invariant (extends P tr0) m.

Definition keeps {A} (J : locals -> Prop) (m : M A) : Prop :=
  invariant (fun s => J (vars s)) m.

Definition raises_only {A} (E : exn -> Prop) (m : M A) : Prop :=
  forall s s' e, m s = (s', Raised e) -> E e.

(** The state and the result of a [try] statement, phase by phase. *)
Definition after_handler (body : M unit) (handler : exn -> M unit)
    (s : machine) : machine * result unit :=
  match snd (body s) with
  | Raised e =>
      if is_Exception e then handler e (fst (body s))
      else (fst (body s), Raised e)
  | Normal a => (fst (body s), Normal a)
  end.

End Run.

Declare Scope run_scope.
Delimit Scope run_scope with run.
Notation "x <- m ;; k" := (Run.bind m (fun x => k))
  (at level 20, m at level 99, k at level 200, only parsing) : run_scope.
Notation "m ;; k" := (Run.bind m (fun _ => k))
  (at level 100, k at level 200, only parsing, right associativity) : run_scope.

(** ** [run_pi_controller] *)

Module Controller.

Import Py World Run.
Local Open Scope run_scope.
Local Open Scope float_scope.

(** Bias value and control interval (seconds). *)
Definition OP_bias : float := 0.0.
Definition delta_t : float := 2.0.

(** The four logging arrays. *)
Inductive array : Type := a_t | a_T1 | a_T_sp_array | a_Q1.

Definition array_of (a : array) (l : locals) : list float :=
  match a with
  | a_t => t l
  | a_T1 => T1 l
  | a_T_sp_array => T_sp_array l
  | a_Q1 => Q1 l
  end.

Definition with_array (a : array) (x : list float) (l : locals) : locals :=
  match a with
  | a_t =>
      {| t := x; T1 := T1 l; T_sp_array := T_sp_array l; Q1 := Q1 l;
         integral_error := integral_error l; lab := lab l |}
  | a_T1 =>
      {| t := t l; T1 := x; T_sp_array := T_sp_array l; Q1 := Q1 l;
         integral_error := integral_error l; lab := lab l |}
  | a_T_sp_array =>
      {| t := t l; T1 := T1 l; T_sp_array := x; Q1 := Q1 l;
         integral_error := integral_error l; lab := lab l |}
  | a_Q1 =>
      {| t := t l; T1 := T1 l; T_sp_array := T_sp_array l; Q1 := x;
         integral_error := integral_error l; lab := lab l |}
  end.

Definition with_integral_error (x : float) (l : locals) : locals :=
  {| t := t l; T1 := T1 l; T_sp_array := T_sp_array l; Q1 := Q1 l;
     integral_error := x; lab := lab l |}.

Definition with_lab (h : option handle) (l : locals) : locals :=
  {| t := t l; T1 := T1 l; T_sp_array := T_sp_array l; Q1 := Q1 l;
     integral_error := integral_error l; lab := h |}.

(** [a[i] = v], [a[i]] and [a[0:k]]. *)
Definition store (a : array) (i : nat) (v : float) : M unit :=
  l <- get ;;
  x <- lift (Np.setitem (array_of a l) i v) ;;
  modify (with_array a x).

Definition load (a : array) (i : nat) : M float :=
  l <- get ;;
  lift (Np.getitem (array_of a l) i).

Definition slice (a : array) (k : nat) : M (list float) :=
  l <- get ;;
  ret (take k (array_of a l)).

(** The plotting calls made before the [try] block (lines 33-56), in
    order. *)
Definition setup_calls : list call :=
  [ plt "plt.figure"; plt "plt.ion"; plt "plt.show";
    plt "plt.subplot"; plt "ax1.set_ylabel"; plt "ax1.plot"; plt "ax1.plot";
    plt "ax1.legend"; plt "ax1.set_xlim"; plt "ax1.grid"; plt "plt.title";
    plt "plt.subplot"; plt "ax2.set_ylabel"; plt "ax2.set_xlabel";
    plt "ax2.plot"; plt "ax2.legend"; plt "ax2.set_xlim"; plt "ax2.set_ylim";
    plt "ax2.grid"; plt "plt.tight_layout" ].

(** Whether the machine lacks the memory for the [k]-th array of a run,
    and the exception the allocation then raises. *)
Definition shortage (w : world) (k : nat) (n : Z) : option exn :=
  match w k (np_zeros n) with
  | Returns _ => None
  | Raises e => Some e
  end.

Section run_pi_controller.

Variable w : world.
Variables duration T_sp Kp Ki : float.

(** Lines 82-111: log the time, read the sensor, compute the PI law, clamp,
    command the heater, undo the accumulation when clamped. *)
Definition control_step (i : nat) : M unit :=
  fi <- lift (int_to_float (Z.of_nat i)) ;;
  store a_t i (fi * delta_t) ;;
  v <- perform w lab_T1 ;;
  store a_T1 i v ;;
  store a_T_sp_array i T_sp ;;
  T1_i <- load a_T1 i ;;
  let error := T_sp - T1_i in
  let P_term := Kp * error in
  modify (fun l => with_integral_error (integral_error l + error * delta_t) l) ;;
  l <- get ;;
  let I_term := Ki * integral_error l in
  let OP := OP_bias + P_term + I_term in
  store a_Q1 i (Np.clip OP 0.0 100.0) ;;
  Q1_i <- load a_Q1 i ;;
  perform w (lab_Q1 Q1_i) ;;
  Q1_i <- load a_Q1 i ;;
  if negb (strictly_between 0.0 Q1_i 100.0)
  then modify (fun l => with_integral_error (integral_error l - error * delta_t) l)
  else ret tt.

(** Lines 114-123: hand the samples so far to the three plot lines, rescale
    the temperature axis when the reading left it, redraw. *)
Definition plot_step (i : nat) : M unit :=
  xs <- slice a_t (S i) ;; ys <- slice a_T1 (S i) ;;
  perform w (set_data "line1" xs ys) ;;
  xs <- slice a_t (S i) ;; ys <- slice a_T_sp_array (S i) ;;
  perform w (set_data "line_sp" xs ys) ;;
  xs <- slice a_t (S i) ;; ys <- slice a_Q1 (S i) ;;
  perform w (set_data "line2" xs ys) ;;
  T1_i <- load a_T1 i ;;
  hi <- perform w (ax1_get_ylim 1) ;;
  outside <-
    (if hi <? T1_i then ret true
     else T1_i <- load a_T1 i ;;
          lo <- perform w (ax1_get_ylim 0) ;;
          ret (T1_i <? lo)) ;;
  (if outside : bool
   then ys <- slice a_T1 (S i) ;; lo <- lift (Np.amin ys) ;;
        ys <- slice a_T1 (S i) ;; hi <- lift (Np.amax ys) ;;
        perform w (ax1_set_ylim (lo - 5) (hi + 5)) ;; ret tt
   else ret tt) ;;
  perform w (plt "plt.draw") ;;
  perform w (plt_pause 0.05) ;;
  ret tt.

(** Line 126: wait for the next control cycle. *)
Definition wait_step : M unit :=
  perform w (time_sleep (delta_t - 0.05)) ;; ret tt.

(** The body of [for i in range(n)]. *)
Definition loop_body (i : nat) : M unit :=
  control_step i ;; plot_step i ;; wait_step.

(** Lines 62-64: connect to the device. *)
Definition connect : M unit :=
  say Connecting ;;
  perform w tclab_TCLab ;;
  modify (with_lab (Some TCLab)) ;;
  say Connected.

(** Lines 66-77: heaters off, indicator on, first reading, axis limits. *)
Definition prepare : M unit :=
  perform w (lab_Q1 0) ;;
  perform w (lab_Q2 0) ;;
  perform w (lab_LED 100) ;;
  T1_initial <- perform w lab_T1 ;;
  say InitialTemperature ;;
  let y_min := py_min T1_initial T_sp - 5.0 in
  let y_max := py_max T1_initial T_sp + 5.0 in
  perform w (ax1_set_ylim y_min y_max) ;;
  ret tt.

(** Lines 60-130, the body of the [try].  Lines 128-130 compute the mean of
    the last readings, which cannot raise, and print it: only the message
    is kept. *)
Definition main_try (n : nat) : M unit :=
  connect ;;
  prepare ;;
  for_range n loop_body ;;
  say RunComplete.

(** The body of the [try] once the connection is made. *)
Definition after_connect (n : nat) : M unit :=
  prepare ;;
  for_range n loop_body ;;
  say RunComplete.

(** Line 133, the [except Exception as e] handler. *)
Definition handler (e : exn) : M unit := say (ErrorOccurred e).

(** Lines 138-143: force the heater to zero and close the connection, inside
    one [try] whose bare [except] passes. *)
Definition release : M unit :=
  l <- get ;;
  match lab l with
  | Some _ => try_except_pass (perform w (lab_Q1 0) ;; perform w lab_close ;; ret tt)
  | None => ret tt
  end.

(** Lines 135-147, the [finally] block. *)
Definition cleanup : M unit :=
  say EnsuringClosed ;;
  release ;;
  perform w (plt "plt.ioff") ;;
  perform w (plt "plt.show") ;;
  ret tt.

(** Lines 23-30: the cycle count, the logging arrays, the controller
    state.  The world is asked for the memory of each array in turn. *)
Definition allocate : M Z :=
  q <- lift (truediv duration delta_t) ;;
  n <- lift (int_of_float q) ;;
  z_t <- lift (Np.zeros (shortage w 0 n) n) ;;
  z_T1 <- lift (Np.zeros (shortage w 1 n) n) ;;
  z_T_sp_array <- lift (Np.zeros (shortage w 2 n) n) ;;
  z_Q1 <- lift (Np.zeros (shortage w 3 n) n) ;;
  modify (fun _ => {| t := z_t; T1 := z_T1; T_sp_array := z_T_sp_array;
                      Q1 := z_Q1; integral_error := 0.0; lab := None |}) ;;
  ret n.

(** Lines 33-56: the figure and its two subplots. *)
Definition setup_plot : M unit :=
  for_each setup_calls (fun c => perform w c ;; ret tt).

(** Lines 6-147. *)
Definition run_pi_controller : M unit :=
  n <- allocate ;;
  setup_plot ;;
  try_except_finally (main_try (Z.to_nat n)) handler cleanup.

End run_pi_controller.

(** *** Closed forms and observations *)

(** The heater command of a cycle, from the state before it and the
    reading [v]. *)
Definition commanded (T_sp Kp Ki : float) (ie v : float) : float :=
  let error := T_sp - v in
  Np.clip (OP_bias + Kp * error + Ki * (ie + error * delta_t)) 0.0 100.0.

(** The integral error a cycle leaves, from the state before it and the
    reading [v]. *)
Definition integrated (T_sp Kp Ki : float) (ie v : float) : float :=
  let error := T_sp - v in
  if strictly_between 0.0 (commanded T_sp Kp Ki ie v) 100.0
  then ie + error * delta_t
  else ie + error * delta_t - error * delta_t.

(** The machine as the [try] statement of a run finds it. *)
Definition entry (w : world) (duration : float) : machine :=
  fst (Run.bind (allocate w duration) (fun _ => setup_plot w) initial).


(** Calls that reach the device. *)
Definition device_call (c : call) : bool :=
  match c with
  | tclab_TCLab | lab_Q1 _ | lab_Q2 _ | lab_LED _ | lab_T1 | lab_close => true
  | _ => false
  end.

(** Calls that command the heater or close the connection. *)
Definition drain_call (c : call) : bool :=
  match c with
  | lab_Q1 _ | lab_close => true
  | _ => false
  end.

Definition sleep_call (c : call) : bool :=
  match c with
  | time_sleep _ => true
  | _ => false
  end.


(** The sleep the specification words describe: the period less the
    processing time of the cycle, and zero when that is negative. *)
Definition remaining_period (processing_time : float) : float :=
  py_max 0.0 (delta_t - processing_time).

(** The cycles a trace shows as run to their end: one [time.sleep] that
    returned for each. *)
Definition slept (ev : event) : bool :=
  match ev with
  | (time_sleep _, Returns _) => true
  | _ => false
  end.

Definition cycles_completed (tr : list event) : nat :=
  length (List.filter slept tr).

(** Whether the handler of line 133 reported an error. *)
Definition error_reported (tr : list event) : bool :=
  existsb (fun ev => match fst ev with
                     | print (ErrorOccurred _) => true
                     | _ => false
                     end) tr.


(** *** Properties of events *)

(** The pause and the sleep of every cycle have fixed lengths. *)
Definition fixed_waits (ev : event) : Prop :=
  match fst ev with
  | time_sleep d => d = delta_t - 0.05
  | plt_pause d => d = 0.05
  | _ => True
  end.

(** Events other than a sleep. *)
Definition no_sleep (ev : event) : Prop := sleep_call (fst ev) = false.


(** Events that are not calls to the device. *)
Definition quiet (ev : event) : Prop := device_call (fst ev) = false.

(** Events other than the connection attempt. *)
Definition no_connect (ev : event) : Prop := fst ev <> tclab_TCLab.

(** Events other than a heater command. *)
Definition no_heater (ev : event) : Prop := forall x, fst ev <> lab_Q1 x.

(** Events that are neither the plot pause nor the sleep. *)
Definition no_wait (ev : event) : Prop :=
  match fst ev with
  | time_sleep _ | plt_pause _ => False
  | _ => True
  end.

(** Every sleep of a trace is for [delta_t - 0.05] and stands directly
    after a plot pause of 0.05 that returned. *)
Definition sleeps_follow_pause (tr : list event) : Prop :=
  forall pre d o post, tr = pre ++ (time_sleep d, o) :: post ->
    d = delta_t - 0.05 /\
    exists pre' u, pre = pre' ++ [(plt_pause 0.05, Returns u)].

End Controller.

(** ** The console layer ([__main__], lines 150-201) *)

Module Console.

Import Py.
Local Open Scope float_scope.

Inductive prompt : Type := AskDuration | AskSetpoint | AskKp | AskKi.

(** What the console layer writes. *)
Inductive output : Type :=
| Banner
| Prompt (p : prompt)
| MustBePositive
| Invalid (p : prompt)
| Running.

(** ['/' in s] and [s.split('/')]. *)
Fixpoint contains (c : ascii) (s : string) : bool :=
  match s with
  | EmptyString => false
  | String a r => Ascii.eqb a c || contains c r
  end.

Fixpoint split (sep : ascii) (s : string) : list string :=
  match s with
  | EmptyString => [EmptyString]
  | String a r =>
      if Ascii.eqb a sep then EmptyString :: split sep r
      else match split sep r with
           | p :: ps => String a p :: ps
           | [] => [String a EmptyString]
           end
  end.

Definition slash : ascii := "/"%char.

Section prompts.

(** The builtin [float] applied to a string. *)
Variable py_float : string -> result float.

(** [num, den = map(float, parts)]: the conversions run in order as the
    unpacking pulls them; a count other than two is a [ValueError]. *)
Definition unpack_two (parts : list string) : result (float * float) :=
  match parts with
  | [] => Raised ValueError
  | [a] =>
      match py_float a with
      | Normal _ => Raised ValueError
      | Raised e => Raised e
      end
  | [a; b] =>
      match py_float a with
      | Normal num =>
          match py_float b with
          | Normal den => Normal (num, den)
          | Raised e => Raised e
          end
      | Raised e => Raised e
      end
  | a :: b :: c :: _ =>
      match py_float a with
      | Normal _ =>
          match py_float b with
          | Normal _ =>
              match py_float c with
              | Normal _ => Raised ValueError
              | Raised e => Raised e
              end
          | Raised e => Raised e
          end
      | Raised e => Raised e
      end
  end.

(** Lines 189-193: the value of one line typed at the Ki prompt. *)
Definition ki_of_input (ki_input : string) : result float :=
  if contains slash ki_input then
    match unpack_two (split slash ki_input) with
    | Normal (num, den) => truediv num den
    | Raised e => Raised e
    end
  else py_float ki_input.

(** The state of the console: the lines still to be typed and what has been
    written.  [input] on an exhausted stream raises [EOFError]. *)
Definition console (A : Type) : Type := (result A * list string * list output)%type.

(** Lines 155-164. *)
Fixpoint input_duration (stdin : list string) (stdout : list output)
    : console float :=
  match stdin with
  | [] => (Raised EOFError, [], stdout ++ [Prompt AskDuration])
  | duration_input :: rest =>
      match py_float duration_input with
      | Normal duration_val =>
          if duration_val <=? 0
          then input_duration rest (stdout ++ [Prompt AskDuration; MustBePositive])
          else (Normal duration_val, rest, stdout ++ [Prompt AskDuration])
      | Raised ValueError =>
          input_duration rest (stdout ++ [Prompt AskDuration; Invalid AskDuration])
      | Raised e => (Raised e, rest, stdout ++ [Prompt AskDuration])
      end
  end.

(** Lines 167-173 and 176-182: the setpoint and Kp loops have one shape. *)
Fixpoint input_float (p : prompt) (stdin : list string) (stdout : list output)
    : console float :=
  match stdin with
  | [] => (Raised EOFError, [], stdout ++ [Prompt p])
  | line :: rest =>
      match py_float line with
      | Normal v => (Normal v, rest, stdout ++ [Prompt p])
      | Raised ValueError => input_float p rest (stdout ++ [Prompt p; Invalid p])
      | Raised e => (Raised e, rest, stdout ++ [Prompt p])
      end
  end.

(** Lines 185-196. *)
Fixpoint input_ki (stdin : list string) (stdout : list output)
    : console float :=
  match stdin with
  | [] => (Raised EOFError, [], stdout ++ [Prompt AskKi])
  | ki_input :: rest =>
      match ki_of_input ki_input with
      | Normal ki_val => (Normal ki_val, rest, stdout ++ [Prompt AskKi])
      | Raised ValueError => input_ki rest (stdout ++ [Prompt AskKi; Invalid AskKi])
      | Raised e => (Raised e, rest, stdout ++ [Prompt AskKi])
      end
  end.

(** Lines 152-198: the four prompts in order; an exception that no handler
    catches ends the program. *)
Definition collect (stdin : list string)
    : console (float * float * float * float) :=
  match input_duration stdin [Banner] with
  | (Normal duration_val, stdin, stdout) =>
      match input_float AskSetpoint stdin stdout with
      | (Normal tsp_val, stdin, stdout) =>
          match input_float AskKp stdin stdout with
          | (Normal kp_val, stdin, stdout) =>
              match input_ki stdin stdout with
              | (Normal ki_val, stdin, stdout) =>
                  (Normal (duration_val, tsp_val, kp_val, ki_val), stdin,
                   stdout ++ [Running])
              | (Raised e, stdin, stdout) => (Raised e, stdin, stdout)
              end
          | (Raised e, stdin, stdout) => (Raised e, stdin, stdout)
          end
      | (Raised e, stdin, stdout) => (Raised e, stdin, stdout)
      end
  | (Raised e, stdin, stdout) => (Raised e, stdin, stdout)
  end.

(** Lines 150-201: collect the four values, then run the controller. *)
Definition main (w : World.world) (stdin : list string)
    : World.machine * result unit :=
  match collect stdin with
  | (Normal (duration_val, tsp_val, kp_val, ki_val), _, _) =>
      Controller.run_pi_controller w duration_val tsp_val kp_val ki_val
        World.initial
  | (Raised e, _, _) => (World.initial, Raised e)
  end.

End prompts.

(** *** Plain decimal literals

    The fragment of [float(str)] used to evaluate the console layer: an
    optional sign followed by [inf], [nan], or digits with an optional
    fraction, of at most fifteen digits in all.  On these the quotient of
    the digits by the power of ten is the correctly rounded value.  Python
    accepts more (exponents, underscores, surrounding blanks, longer
    literals); such strings are rejected here. *)

Definition digit_of (c : ascii) : option Z :=
  let n := nat_of_ascii c in
  if ((48 <=? n) && (n <=? 57))%nat then Some (Z.of_nat (n - 48)) else None.

(** The digits of [s] up to its end or the first dot, with the rest. *)
Fixpoint digits (s : string) (acc : Z) (count : nat)
    : option (Z * nat * string) :=
  match s with
  | EmptyString => Some (acc, count, EmptyString)
  | String c r =>
      if Ascii.eqb c "."%char then Some (acc, count, s)
      else match digit_of c with
           | Some d => digits r (10 * acc + d)%Z (S count)
           | None => None
           end
  end.

Definition unsigned_literal (s : string) : result float :=
  if String.eqb s "inf" then Normal infinity
  else if String.eqb s "nan" then Normal nan
  else
    match digits s 0 0 with
    | Some (whole, n1, EmptyString) =>
        if ((1 <=? n1) && (n1 <=? 15))%nat then Normal (float_of_int whole)
        else Raised ValueError
    | Some (whole, n1, String _ frac) =>
        match digits frac whole 0 with
        | Some (all, n2, EmptyString) =>
            if ((1 <=? n1 + n2) && (n1 + n2 <=? 15))%nat
            then Normal (float_of_int all / float_of_int (10 ^ Z.of_nat n2))
            else Raised ValueError
        | _ => Raised ValueError
        end
    | None => Raised ValueError
    end.

Definition float_of_literal (s : string) : result float :=
  match s with
  | String "-" r =>
      match unsigned_literal r with
      | Normal v => Normal (- v)
      | Raised e => Raised e
      end
  | String "+" r => unsigned_literal r
  | _ => unsigned_literal s
  end.

End Console.

(** ** Worlds and inputs used to evaluate the program *)

(** ** Time, as the specification counts it *)

Module Timing.

Import Py World Controller.
Local Open Scope float_scope.

(** How long each external call of a run took.  The program reads no
    clock: this is the time an observer measures. *)
Definition timing : Type := event -> float.

(** The processing time of a cycle: the time its calls [work] took, from
    the sensor read to the end of the rendering. *)
Definition processing_time (took : timing) (work : list event) : float :=
  fold_left (fun acc ev => acc + took ev) work 0.0.

(** The sleep the specification asks for after the calls [work]. *)
Definition remaining_period_of (took : timing) (work : list event) : float :=
  remaining_period (processing_time took work).

(** Step 12 of the specification, for a cycle whose events are [work]
    followed by the sleep: the sleep is for the period less the processing
    time of the cycle, and for zero when that is negative. *)
Definition sleeps_for_remaining_period (took : timing) (cycle : list event)
    : Prop :=
  forall work d o, cycle = work ++ [(time_sleep d, o)] ->
    d = remaining_period_of took work.

End Timing.

Module Scenarios.

Import Py World.
Local Open Scope float_scope.

(** A device at a steady 25.0 degC, a temperature axis from 10 to 40, and
    collaborators that never fail. *)
Definition steady : world :=
  fun k c =>
    match c with
    | lab_T1 => Returns 25.0
    | ax1_get_ylim 1 => Returns 40.0
    | ax1_get_ylim _ => Returns 10.0
    | _ => Returns 0.0
    end.

(** A device at a steady 25.3 degC. *)
Definition ambient : world :=
  fun k c =>
    match c with
    | lab_T1 => Returns 25.3
    | _ => steady k c
    end.

(** No device is found. *)
Definition no_device : world :=
  fun k c =>
    match c with
    | tclab_TCLab => Raises (DriverError "No Arduino device found")
    | _ => steady k c
    end.

(** The device is unplugged during cycle 3: from call 59 of a run, the
    sensor read of cycle 3, every call to the device raises. *)
Definition unplugged : world :=
  fun k c =>
    if (59 <=? k)%nat && Controller.device_call c
    then Raises (DriverError "device disconnected")
    else steady k c.


(** The heater command fails, everything else works. *)
Definition heater_stuck : world :=
  fun k c =>
    match c with
    | lab_Q1 _ => Raises (DriverError "write failed")
    | _ => steady k c
    end.

(** The sensor cannot be read. *)
Definition sensor_dead : world :=
  fun k c =>
    match c with
    | lab_T1 => Raises (DriverError "read failed")
    | _ => steady k c
    end.

(** A device at 45.0 degC, above the temperature axis. *)
Definition hot : world :=
  fun k c =>
    match c with
    | lab_T1 => Returns 45.0
    | _ => steady k c
    end.

(** The sensor read takes 0.1 s and the plot pause the 0.05 s asked for;
    the other calls take no time. *)
Definition brisk : Timing.timing :=
  fun ev =>
    match fst ev with
    | lab_T1 => 0.1
    | plt_pause d => d
    | _ => 0.0
    end.

(** Rendering is slow: each [set_data] takes 1 s, so a cycle takes longer
    than the period. *)
Definition sluggish : Timing.timing :=
  fun ev =>
    match fst ev with
    | set_data _ _ _ => 1.0
    | plt_pause d => d
    | _ => 0.0
    end.


(** A machine with a device handle and arrays for one cycle. *)
Definition connected : machine :=
  {| vars := {| t := [0.0]; T1 := [0.0]; T_sp_array := [0.0]; Q1 := [0.0];
                integral_error := 0.0; lab := Some TCLab |};
     trace := [] |}.

End Scenarios.

(** ** Further observations of a trace *)

Module Tally.

Import Py World.
Local Open Scope float_scope.

(** How many events of a trace satisfy [p]. *)
Definition tally (p : event -> bool) (tr : list event) : nat :=
  length (List.filter p tr).

(** Reads of the sensor and commands to heater 1. *)
Definition sensor_read (ev : event) : bool :=
  match fst ev with
  | lab_T1 => true
  | _ => false
  end.

Definition heater_command (ev : event) : bool :=
  match fst ev with
  | lab_Q1 _ => true
  | _ => false
  end.

(** Heater 2 is only ever set to 0 and the indicator to 100. *)
Definition fixed_outputs (ev : event) : Prop :=
  match fst ev with
  | lab_Q2 v => v = 0.0
  | lab_LED v => v = 100.0
  | _ => True
  end.

End Tally.

(** ** What is handed to the plot *)

Module Plotting.

Import Py World Run.

(** A plot line is given as many abscissas as ordinates. *)
Definition aligned (ev : event) : Prop :=
  match fst ev with
  | set_data _ xs ys => length xs = length ys
  | _ => True
  end.

(** The four logging arrays have one length. *)
Definition same_lengths (l : locals) : Prop :=
  length (T1 l) = length (t l) /\
  length (T_sp_array l) = length (t l) /\
  length (Q1 l) = length (t l).

Definition plots_aligned (tr0 : list event) (s : machine) : Prop :=
  same_lengths (vars s) /\ extends aligned tr0 s.

End Plotting.

(** ** What the console writes for a rejected line *)

Module Transcript.

Import Py Console.
Local Open Scope float_scope.

(** The duration prompt answers a line that is no number with the
    complaint about the input, and a number that is not positive with the
    complaint about the sign; either way it asks again. *)
Definition duration_complaint (py_float : string -> result float)
    (line : string) : list output :=
  match py_float line with
  | Normal _ => [Prompt AskDuration; MustBePositive]
  | Raised _ => [Prompt AskDuration; Invalid AskDuration]
  end.

(** Lines the duration prompt rejects and stays alive on. *)
Definition duration_rejected (py_float : string -> result float)
    (line : string) : Prop :=
  py_float line = Raised ValueError \/
  exists v, py_float line = Normal v /\ PrimFloat.leb v 0 = true.

End Transcript.

(** ** The indicator test ([tclab_led_test.py]) *)

Module Led.

Import Py.
Local Open Scope float_scope.

(** What the script prints. *)
Inductive message : Type :=
| Attempting
| ConnectedAt
| LedOn
| Waiting
| LedOff
| Closed
| CouldNotFind
| ErrorOccurred (e : exn).

(** The calls the script makes.  [a_connected] and [a_port] read the
    attributes [a.connected] and [a.port]; [input_prompt] is the [input]
    that keeps the window of a frozen executable open. *)
Inductive call : Type :=
| print (m : message)
| tclab_TCLab
| a_connected
| a_port
| a_LED (v : float)
| time_sleep (d : float)
| a_close
| input_prompt.

(** A call returns a value, of which only the truth value is ever used, or
    raises. *)
Inductive outcome : Type :=
| Returns (truth : bool)
| Raises (e : exn).

Definition event : Type := call * outcome.

Definition world : Type := nat -> call -> outcome.

Definition M (A : Type) : Type := list event -> list event * result A.

Definition ret {A} (a : A) : M A := fun tr => (tr, Normal a).

Definition bind {A B} (m : M A) (k : A -> M B) : M B :=
  fun tr =>
    match m tr with
    | (tr', Normal a) => k a tr'
    | (tr', Raised e) => (tr', Raised e)
    end.

Definition perform (w : world) (c : call) : M bool :=
  fun tr =>
    match w (length tr) c with
    | Returns b => (tr ++ [(c, Returns b)], Normal b)
    | Raises e => (tr ++ [(c, Raises e)], Raised e)
    end.

(** Console output is taken not to fail. *)
Definition say (m : message) : M unit :=
  fun tr => (tr ++ [(print m, Returns true)], Normal tt).

(** [try: body  except Exception as e: handler e]. *)
Definition try_except (body : M unit) (handler : exn -> M unit) : M unit :=
  fun tr =>
    match body tr with
    | (tr', Raised e) =>
        if is_Exception e then handler e tr' else (tr', Raised e)
    | (tr', Normal a) => (tr', Normal a)
    end.

Declare Scope led_scope.
Notation "x <- m ;; k" := (bind m (fun x => k))
  (at level 20, m at level 99, k at level 200, only parsing) : led_scope.
Notation "m ;; k" := (bind m (fun _ => k))
  (at level 100, k at level 200, only parsing, right associativity) : led_scope.
Local Open Scope led_scope.

Section script.

(** [getattr(sys, 'frozen', False)] and the world. *)
Variable frozen : bool.
Variable w : world.

(** Lines 19-35: the branch taken when [a.connected] is true. *)
Definition blink : M unit :=
  perform w a_port ;;
  say ConnectedAt ;;
  say LedOn ;;
  perform w (a_LED 100) ;;
  say Waiting ;;
  perform w (time_sleep 10.0) ;;
  say LedOff ;;
  perform w (a_LED 0) ;;
  perform w a_close ;;
  say Closed.

(** Lines 12-37, the body of the [try]. *)
Definition attempt : M unit :=
  say Attempting ;;
  perform w tclab_TCLab ;;
  connected <- perform w a_connected ;;
  if connected : bool then blink else say CouldNotFind.

(** Lines 39-46, the handler. *)
Definition report (e : exn) : M unit :=
  say (ErrorOccurred e) ;;
  if frozen then perform w input_prompt ;; ret tt else ret tt.

(** Lines 11-46. *)
Definition script : M unit := try_except attempt report.

End script.

(** The indicator was switched on, or off. *)
Definition switches_off (c : call) : bool :=
  match c with
  | a_LED v => PrimFloat.eqb v 0
  | _ => false
  end.

Definition closes (c : call) : bool :=
  match c with
  | a_close => true
  | _ => false
  end.

(** Commands to the indicator and the closing of the connection. *)
Definition uses_handle (c : call) : bool :=
  match c with
  | a_LED _ | a_close => true
  | _ => false
  end.

(** A device that is found and works. *)
Definition working : world := fun k c => Returns true.

(** The operator presses Ctrl-C during the wait, or the wait fails. *)
Definition wait_fails (e : exn) : world :=
  fun k c =>
    match c with
    | time_sleep _ => Raises e
    | _ => Returns true
    end.

(** The handle reports that it is not connected. *)
Definition not_connected : world :=
  fun k c =>
    match c with
    | a_connected => Returns false
    | _ => Returns true
    end.

End Led.

(** * Reasoning about runs *)

Module RunFacts.

Import Py World Run.

(** ** Inversion of a step that returned normally *)

Lemma bind_Normal {A B} (m : M A) (k : A -> M B) s s' b :
  bind m k s = (s', Normal b) ->
  exists s1 a, m s = (s1, Normal a) /\ k a s1 = (s', Normal b).
Proof.
  unfold bind. destruct (m s) as [s1 [a | e]]; intros H.
  - exists s1, a. auto.
  - discriminate.
Qed.

Lemma bind_Raised {A B} (m : M A) (k : A -> M B) s s' e :
  bind m k s = (s', Raised e) ->
  m s = (s', Raised e) \/
  exists s1 a, m s = (s1, Normal a) /\ k a s1 = (s', Raised e).
Proof.
  unfold bind. destruct (m s) as [s1 [a | e1]]; intros H.
  - right. exists s1, a. auto.
  - left. inversion H; subst. reflexivity.
Qed.

Lemma perform_Normal w c s s' v :
  perform w c s = (s', Normal v) ->
  w (length (trace s)) c = Returns v /\ s' = log (c, Returns v) s.
Proof.
  unfold perform. destruct (w (length (trace s)) c); intros H; inversion H; auto.
Qed.

Lemma perform_Raised w c s s' e :
  perform w c s = (s', Raised e) ->
  w (length (trace s)) c = Raises e /\ s' = log (c, Raises e) s.
Proof.
  unfold perform. destruct (w (length (trace s)) c); intros H; inversion H; auto.
Qed.


Lemma perform_Raises w c s e :
  w (length (trace s)) c = Raises e ->
  perform w c s = (log (c, Raises e) s, Raised e).
Proof. unfold perform. intros ->. reflexivity. Qed.

Lemma lift_Normal {A} (r : result A) s s' a :
  lift r s = (s', Normal a) -> r = Normal a /\ s' = s.
Proof. unfold lift. intros H; inversion H; auto. Qed.

Lemma ret_Normal {A} (x : A) s s' a :
  ret x s = (s', Normal a) -> a = x /\ s' = s.
Proof. unfold ret. intros H; inversion H; auto. Qed.

Lemma get_Normal s s' l :
  get s = (s', Normal l) -> l = vars s /\ s' = s.
Proof. unfold get. intros H; inversion H; auto. Qed.

Lemma modify_Normal f s s' u :
  modify f s = (s', Normal u) ->
  s' = {| vars := f (vars s); trace := trace s |}.
Proof. unfold modify. intros H; inversion H; auto. Qed.

Lemma say_Normal m s s' u :
  say m s = (s', Normal u) -> s' = log (print m, Returns 0) s.
Proof. unfold say. intros H; inversion H; auto. Qed.

(** ** Invariants: what every step of a computation preserves *)

Lemma invariant_ret {A} I (a : A) : invariant I (ret a).
Proof. intros s H. exact H. Qed.

Lemma invariant_lift {A} I (r : result A) : invariant I (lift r).
Proof. intros s H. exact H. Qed.

Lemma invariant_get I : invariant I get.
Proof. intros s H. exact H. Qed.

Lemma invariant_bind {A B} I (m : M A) (k : A -> M B) :
  invariant I m -> (forall a, invariant I (k a)) -> invariant I (bind m k).
Proof.
  intros Hm Hk s H. unfold bind.
  specialize (Hm s H). destruct (m s) as [s1 [a | e]]; simpl in *.
  - apply Hk. exact Hm.
  - exact Hm.
Qed.

Lemma invariant_perform I w c :
  (forall s o, I s -> I (log (c, o) s)) -> invariant I (perform w c).
Proof.
  intros Hlog s H. unfold perform.
  destruct (w (length (trace s)) c); simpl; apply Hlog; exact H.
Qed.

Lemma invariant_say I m :
  (forall s, I s -> I (log (print m, Returns 0) s)) -> invariant I (say m).
Proof. intros Hlog s H. simpl. apply Hlog. exact H. Qed.

Lemma invariant_modify I f :
  (forall s, I s -> I {| vars := f (vars s); trace := trace s |}) ->
  invariant I (modify f).
Proof. intros Hf s H. simpl. apply Hf. exact H. Qed.

Lemma invariant_for_each {A} I (l : list A) (body : A -> M unit) :
  (forall x, In x l -> invariant I (body x)) -> invariant I (for_each l body).
Proof.
  induction l as [| x l IH]; intros Hbody; simpl.
  - apply invariant_ret.
  - apply invariant_bind.
    + apply Hbody. left. reflexivity.
    + intros _. apply IH. intros y Hy. apply Hbody. right. exact Hy.
Qed.

Lemma invariant_try_except_finally I body handler final :
  invariant I body -> (forall e, invariant I (handler e)) -> invariant I final ->
  invariant I (try_except_finally body handler final).
Proof.
  intros Hb Hh Hf s H. unfold try_except_finally.
  specialize (Hb s H). destruct (body s) as [s1 r1]; simpl in Hb.
  assert (H2 : I (fst (match r1 with
                       | Raised e => if is_Exception e then handler e s1 else (s1, Raised e)
                       | Normal a => (s1, Normal a)
                       end))).
  { destruct r1 as [a | e]; simpl; auto.
    destruct (is_Exception e); simpl; auto. apply Hh. exact Hb. }
  destruct (match r1 with
            | Raised e => if is_Exception e then handler e s1 else (s1, Raised e)
            | Normal a => (s1, Normal a)
            end) as [s2 r2]; simpl in H2.
  specialize (Hf s2 H2). destruct (final s2) as [s3 [u | e]]; simpl in *; exact Hf.
Qed.

Lemma try_except_finally_phases body handler final s :
  try_except_finally body handler final s =
  (fst (final (fst (after_handler body handler s))),
   match snd (final (fst (after_handler body handler s))) with
   | Raised e => Raised e
   | Normal _ => snd (after_handler body handler s)
   end).
Proof.
  unfold try_except_finally, after_handler.
  destruct (body s) as [s1 [a | e]]; simpl.
  - destruct (final s1) as [s3 [u | e3]]; reflexivity.
  - destruct (is_Exception e).
    + destruct (handler e s1) as [s2 r2]; simpl.
      destruct (final s2) as [s3 [u | e3]]; reflexivity.
    + simpl. destruct (final s1) as [s3 [u | e3]]; reflexivity.
Qed.

Lemma invariant_try_except_pass I body :
  invariant I body -> invariant I (try_except_pass body).
Proof. intros Hb s H. simpl. apply Hb. exact H. Qed.

(** ** Invariants of the trace and of the variables *)

Lemma extends_refl P s : extends P (trace s) s.
Proof. exists []. split; [symmetry; apply app_nil_r | constructor]. Qed.

Lemma extends_log P tr0 ev s :
  P ev -> extends P tr0 s -> extends P tr0 (log ev s).
Proof.
  intros Hev (evs & Htr & Hall). exists (evs ++ [ev]). split.
  - simpl. rewrite Htr. symmetry. apply app_assoc.
  - apply Forall_app. split; [exact Hall | repeat constructor; exact Hev].
Qed.

Lemma emits_events {A} P (m : M A) s :
  emits P m -> exists evs, trace (fst (m s)) = trace s ++ evs /\ Forall P evs.
Proof. intros H. apply (H (trace s) s). apply extends_refl. Qed.

Lemma keeps_vars {A} (m : M A) s :
  (forall l, keeps (fun x => x = l) m) -> vars (fst (m s)) = vars s.
Proof. intros H. apply (H (vars s) s). reflexivity. Qed.

(** Breaks an invariant of a composed computation into its steps; what is
    left says that logging an event or updating the variables preserves
    it. *)
Ltac invariant_steps :=
  repeat match goal with
  | |- invariant _ (bind _ _) => apply invariant_bind; [ | intros ? ]
  | |- invariant _ (ret _) => apply invariant_ret
  | |- invariant _ (lift _) => apply invariant_lift
  | |- invariant _ get => apply invariant_get
  | |- invariant _ (for_each _ _) => apply invariant_for_each; intros ? ?
  | |- invariant _ (for_range _ _) => unfold for_range
  | |- invariant _ (try_except_pass _) => apply invariant_try_except_pass
  | |- invariant _ (try_except_finally _ _ _) =>
      apply invariant_try_except_finally; [ | intros ? | ]
  | |- invariant _ (perform _ _) => apply invariant_perform; intros ? ? ?
  | |- invariant _ (say _) => apply invariant_say; intros ? ?
  | |- invariant _ (modify _) => apply invariant_modify; intros ? ?
  | |- invariant _ (if ?b then _ else _) => destruct b
  | |- invariant _ (match ?x with _ => _ end) => destruct x
  end.

(** ** Which exceptions a computation can raise *)

Lemma raises_only_ret {A} E (a : A) : raises_only E (ret a).
Proof. intros s s' e H. discriminate. Qed.

Lemma raises_only_get E : raises_only E get.
Proof. intros s s' e H. discriminate. Qed.

Lemma raises_only_modify E f : raises_only E (modify f).
Proof. intros s s' e H. discriminate. Qed.

Lemma raises_only_say E m : raises_only E (say m).
Proof. intros s s' e H. discriminate. Qed.

Lemma raises_only_lift {A} (E : exn -> Prop) (r : result A) :
  (forall e, r = Raised e -> E e) -> raises_only E (lift r).
Proof. intros Hr s s' e H. apply Hr. inversion H. reflexivity. Qed.

Lemma raises_only_perform (E : exn -> Prop) w c :
  (forall k e, w k c = Raises e -> E e) -> raises_only E (perform w c).
Proof.
  intros Hw s s' e H. apply perform_Raised in H as [H _]. exact (Hw _ _ H).
Qed.

Lemma raises_only_bind {A B} E (m : M A) (k : A -> M B) :
  raises_only E m -> (forall a, raises_only E (k a)) ->
  raises_only E (bind m k).
Proof.
  intros Hm Hk s s' e H. apply bind_Raised in H as [H | (s1 & a & _ & H)].
  - exact (Hm _ _ _ H).
  - exact (Hk _ _ _ _ H).
Qed.

Lemma raises_only_for_each {A} E (l : list A) (body : A -> M unit) :
  (forall x, raises_only E (body x)) -> raises_only E (for_each l body).
Proof.
  intros Hbody. induction l as [| x l IH]; simpl.
  - apply raises_only_ret.
  - apply raises_only_bind; auto.
Qed.

Ltac raises_steps :=
  repeat match goal with
  | |- raises_only _ (bind _ _) => apply raises_only_bind; [ | intros ? ]
  | |- raises_only _ (ret _) => apply raises_only_ret
  | |- raises_only _ get => apply raises_only_get
  | |- raises_only _ (modify _) => apply raises_only_modify
  | |- raises_only _ (say _) => apply raises_only_say
  | |- raises_only _ (lift _) => apply raises_only_lift; intros ? ?
  | |- raises_only _ (perform _ _) => apply raises_only_perform; intros ? ? ?
  | |- raises_only _ (for_each _ _) => apply raises_only_for_each; intros ?
  | |- raises_only _ (for_range _ _) => unfold for_range
  | |- raises_only _ (if ?b then _ else _) => destruct b
  | |- raises_only _ (match ?x with _ => _ end) => destruct x
  end.

End RunFacts.

(** * Floating point *)

Module FloatFacts.

Import Py.
Local Open Scope float_scope.

Lemma ltb_leb x y : PrimFloat.ltb x y = true -> PrimFloat.leb x y = true.
Proof.
  rewrite ltb_spec, leb_spec. unfold SFltb, SFleb.
  destruct (SFcompare (Prim2SF x) (Prim2SF y)) as [[| |] |]; congruence.
Qed.

(** [np.clip] to [0.0, 100.0] lands in that interval unless its argument is
    NaN, which it returns. *)
Lemma clip_in_range x :
  PrimFloat.is_nan x = false -> between 0.0 (Np.clip x 0.0 100.0) 100.0 = true.
Proof.
  intros Hnan. unfold Np.clip, Np.clip_max, Np.clip_min, between.
  rewrite Hnan.
  destruct (PrimFloat.ltb 0 x) eqn:H0.
  - rewrite Hnan. destruct (PrimFloat.ltb x 100) eqn:H100.
    + rewrite (ltb_leb _ _ H0), (ltb_leb _ _ H100). reflexivity.
    + reflexivity.
  - reflexivity.
Qed.

Lemma clip_nan x :
  PrimFloat.is_nan x = true -> Np.clip x 0.0 100.0 = x.
Proof.
  intros Hnan. unfold Np.clip, Np.clip_max, Np.clip_min.
  rewrite Hnan. rewrite Hnan. reflexivity.
Qed.

Lemma binary_round_aux_sign sx mx ex lx s m e :
  binary_round_aux prec emax sx mx ex lx = S754_finite s m e -> s = sx.
Proof.
  unfold binary_round_aux.
  destruct (shr_fexp prec emax mx ex lx) as [mrs1 e1].
  destruct (shr_fexp prec emax _ e1 loc_Exact) as [mrs2 e2].
  destruct (shr_m mrs2); try discriminate.
  destruct (Z.leb e2 (emax - prec)); congruence.
Qed.

(** For a positive duration, [int] of the quotient by [delta_t] is its
    floor. *)
Lemma int_of_positive_quotient d n :
  PrimFloat.ltb 0 d = true ->
  int_of_float (d / Controller.delta_t) = Normal n ->
  floor_of_float (d / Controller.delta_t) = Normal n.
Proof.
  rewrite ltb_spec. unfold int_of_float, floor_of_float.
  rewrite div_spec.
  change (Prim2SF 0) with (S754_zero false).
  change (Prim2SF Controller.delta_t) with (S754_finite false 4503599627370496 (-51)).
  destruct (Prim2SF d) as [sd | sd | | sd md ed]; try discriminate.
  destruct sd; [discriminate |]. intros _.
  unfold SF64div, SFdiv.
  destruct (SFdiv_core_binary prec emax (Z.pos md) ed _ _) as [[mz ez] lz].
  destruct (binary_round_aux prec emax (xorb false false) mz ez lz)
    as [sq | sq | | sq mq eq] eqn:Hq; auto.
  apply binary_round_aux_sign in Hq. subst sq. auto.
Qed.

End FloatFacts.

(** * The controller *)

Module ControllerFacts.

Import Py World Run RunFacts Controller.
Local Open Scope float_scope.

(** Peels a computation that returned normally into its steps. *)
Ltac run_inv :=
  repeat match goal with
  | H : bind _ _ _ = (_, Normal _) |- _ =>
      let s1 := fresh "s" in let a := fresh "a" in let H1 := fresh "Hstep" in
      apply bind_Normal in H; destruct H as (s1 & a & H1 & H); cbv beta zeta in H
  | H : lift _ _ = (_, Normal _) |- _ =>
      let E := fresh "Hlift" in
      apply lift_Normal in H; destruct H as [E ?]; subst
  | H : ret _ _ = (_, Normal _) |- _ =>
      apply ret_Normal in H; destruct H as [? ?]; subst
  | H : get _ = (_, Normal _) |- _ =>
      apply get_Normal in H; destruct H as [? ?]; subst
  | H : modify _ _ = (_, Normal _) |- _ =>
      apply modify_Normal in H; subst
  | H : say _ _ = (_, Normal _) |- _ =>
      apply say_Normal in H; subst
  | H : perform _ _ _ = (_, Normal _) |- _ =>
      let E := fresh "Hworld" in
      apply perform_Normal in H; destruct H as [E ?]; subst
  end.

Lemma setitem_Normal a i v x :
  Np.setitem a i v = Normal x -> (i < length a)%nat /\ x = <[i := v]> a.
Proof.
  unfold Np.setitem.
  destruct (Nat.ltb_spec i (length a)) as [Hlt | Hge]; intros H; inversion H.
  auto.
Qed.

Lemma getitem_Normal a i v :
  Np.getitem a i = Normal v -> a !! i = Some v.
Proof. unfold Np.getitem. destruct (a !! i); intros H; inversion H. auto. Qed.

Lemma store_Normal a i v s s' u :
  store a i v s = (s', Normal u) ->
  (i < length (array_of a (vars s)))%nat /\
  s' = {| vars := with_array a (<[i := v]> (array_of a (vars s))) (vars s);
          trace := trace s |}.
Proof.
  unfold store. intros H. run_inv.
  apply setitem_Normal in Hlift as [Hi ->]. auto.
Qed.

Lemma load_Normal a i s s' v :
  load a i s = (s', Normal v) -> array_of a (vars s) !! i = Some v /\ s' = s.
Proof.
  unfold load. intros H. run_inv. apply getitem_Normal in Hlift. auto.
Qed.

Ltac ctl_inv :=
  repeat first [ progress run_inv |
    match goal with
    | H : store _ _ _ _ = (_, Normal _) |- _ =>
        let E := fresh "Hlen" in
        apply store_Normal in H; destruct H as [E ?]; subst
    | H : load _ _ _ = (_, Normal _) |- _ =>
        let E := fresh "Hload" in
        apply load_Normal in H; destruct H as [E ?]; subst
    end ].

(** What a control step that ran to its end did. *)
Lemma control_step_Normal w T_sp Kp Ki i s s' :
  control_step w T_sp Kp Ki i s = (s', Normal tt) ->
  exists fi v u,
    let ie := integral_error (vars s) in
    let q := commanded T_sp Kp Ki ie v in
    int_to_float (Z.of_nat i) = Normal fi /\
    w (length (trace s)) lab_T1 = Returns v /\
    w (S (length (trace s))) (lab_Q1 q) = Returns u /\
    (i < length (t (vars s)))%nat /\
    (i < length (T1 (vars s)))%nat /\
    (i < length (T_sp_array (vars s)))%nat /\
    (i < length (Q1 (vars s)))%nat /\
    vars s' = {| t := <[i := fi * delta_t]> (t (vars s));
                 T1 := <[i := v]> (T1 (vars s));
                 T_sp_array := <[i := T_sp]> (T_sp_array (vars s));
                 Q1 := <[i := q]> (Q1 (vars s));
                 integral_error := integrated T_sp Kp Ki ie v;
                 lab := lab (vars s) |} /\
    trace s' = trace s ++ [(lab_T1, Returns v); (lab_Q1 q, Returns u)].
Proof.
  unfold control_step. intros H. ctl_inv.
  destruct s as [[xt xT1 xsp xQ1 ie lb] tr]; simpl in *.
  rewrite list_lookup_insert_eq in Hload by assumption.
  injection Hload as <-.
  rewrite list_lookup_insert_eq in Hload0 by assumption.
  injection Hload0 as <-.
  rewrite list_lookup_insert_eq in Hload1 by assumption.
  injection Hload1 as <-.
  rewrite length_app, Nat.add_1_r in Hworld; simpl in Hworld.
  exists a, a1, a9. unfold integrated, commanded. cbv zeta.
  repeat (split; [assumption |]).
  destruct (strictly_between 0 _ 100); simpl in H; ctl_inv; simpl;
    rewrite <- app_assoc; auto.
Qed.

(** ** Plotting and waiting leave the variables alone *)

Ltac ctl_invariant :=
  repeat first
    [ progress invariant_steps
    | progress cbv zeta
    | progress unfold loop_body, control_step, plot_step, wait_step, main_try,
        connect, prepare, cleanup, release, handler, setup_plot, allocate,
        store, load, slice ].

Lemma plot_step_keeps J w i : keeps J (plot_step w i).
Proof. unfold keeps. ctl_invariant; auto. Qed.

Lemma wait_step_keeps J w : keeps J (wait_step w).
Proof. unfold keeps. ctl_invariant; auto. Qed.

Lemma loop_body_vars w T_sp Kp Ki i s s1 :
  control_step w T_sp Kp Ki i s = (s1, Normal tt) ->
  vars (fst (loop_body w T_sp Kp Ki i s)) = vars s1.
Proof.
  intros H. unfold loop_body, bind at 1. rewrite H.
  apply (keeps_vars (bind (plot_step w i) (fun _ => wait_step w))).
  intros l. unfold keeps. apply invariant_bind; [ | intros _ ].
  - apply (plot_step_keeps (fun x => x = l)).
  - apply (wait_step_keeps (fun x => x = l)).
Qed.

(** C4.  In a cycle whose control step ran to its end with the commanded
    output strictly between 0.0 and 100.0, the integral error after the
    cycle is the integral error before it plus [error * delta_t], where
    [error = T_sp - T1[i]]. *)
Theorem unsaturated_cycle_accumulates w T_sp Kp Ki i s s1 q :
  control_step w T_sp Kp Ki i s = (s1, Normal tt) ->
  Q1 (vars s1) !! i = Some q ->
  strictly_between 0.0 q 100.0 = true ->
  exists T1_i,
    T1 (vars s1) !! i = Some T1_i /\
    integral_error (vars (fst (loop_body w T_sp Kp Ki i s))) =
      integral_error (vars s) + (T_sp - T1_i) * delta_t.
Proof.
  intros Hstep Hq Hin. rewrite (loop_body_vars _ _ _ _ _ _ _ Hstep).
  apply control_step_Normal in Hstep
    as (fi & v & u & _ & _ & _ & _ & HT1 & _ & HQ1 & Hvars & _).
  rewrite Hvars in *. simpl in *.
  rewrite list_lookup_insert_eq in Hq by assumption. injection Hq as <-.
  exists v. split.
  - apply list_lookup_insert_eq. assumption.
  - unfold integrated. cbv zeta. rewrite Hin. reflexivity.
Qed.

(** ** The cleanup *)

Lemma release_connected w s h :
  lab (vars s) = Some h ->
  snd (release w s) = Normal tt /\
  vars (fst (release w s)) = vars s /\
  match w (length (trace s)) (lab_Q1 0) with
  | Raises e => trace (fst (release w s)) = trace s ++ [(lab_Q1 0, Raises e)]
  | Returns v =>
      trace (fst (release w s)) =
        trace s ++ [(lab_Q1 0, Returns v);
                    (lab_close, w (S (length (trace s))) lab_close)]
  end.
Proof.
  intros Hlab. unfold release, try_except_pass, bind, perform, get.
  cbn beta iota. rewrite Hlab. cbn [fst snd].
  split; [reflexivity |].
  destruct (w (length (trace s)) (lab_Q1 0)) as [v | e].
  - cbn [log trace]. rewrite length_app, Nat.add_1_r. cbn [length].
    destruct (w (S (length (trace s))) lab_close); cbn [fst log trace vars ret];
      rewrite <- app_assoc; split; reflexivity.
  - split; reflexivity.
Qed.

(** C9.  With a device handle bound to [lab], the release block never
    raises; when the force-to-zero command raises, that command is the only
    call it made, so [lab.close()] is never invoked; when the command
    returns, [lab.close()] is called next and whatever it does is swallowed
    too. *)
Theorem release_swallows_and_skips_close w s h :
  lab (vars s) = Some h ->
  snd (release w s) = Normal tt /\
  (forall e, w (length (trace s)) (lab_Q1 0) = Raises e ->
     trace (fst (release w s)) = trace s ++ [(lab_Q1 0, Raises e)]) /\
  (forall v, w (length (trace s)) (lab_Q1 0) = Returns v ->
     trace (fst (release w s)) =
       trace s ++ [(lab_Q1 0, Returns v);
                   (lab_close, w (S (length (trace s))) lab_close)]).
Proof.
  intros Hlab.
  destruct (release_connected w s h Hlab) as (Hres & _ & Htr).
  split; [exact Hres |]. split.
  - intros e He. rewrite He in Htr. exact Htr.
  - intros v Hv. rewrite Hv in Htr. exact Htr.
Qed.

(** ** Waiting *)

Lemma setup_calls_plt c : In c setup_calls -> exists m, c = plt m.
Proof.
  unfold setup_calls. simpl.
  intros H; repeat destruct H as [<- | H]; try (eexists; reflexivity).
  contradiction.
Qed.

Lemma run_emits_fixed_waits w duration T_sp Kp Ki :
  emits fixed_waits (run_pi_controller w duration T_sp Kp Ki).
Proof.
  intros tr0. unfold run_pi_controller. ctl_invariant; auto;
    try (apply extends_log; [exact I || reflexivity | assumption]).
  apply extends_log; [ | assumption ].
  destruct (setup_calls_plt _ H) as [m ->]. exact I.
Qed.

(** ** Counting cycles *)

Lemma cycles_completed_app tr evs :
  cycles_completed (tr ++ evs) =
    (cycles_completed tr + cycles_completed evs)%nat.
Proof. unfold cycles_completed. rewrite List.filter_app. apply length_app. Qed.

Lemma cycles_completed_no_sleep evs :
  Forall no_sleep evs -> cycles_completed evs = 0%nat.
Proof.
  unfold cycles_completed, no_sleep.
  induction 1 as [| [c o] evs Hev _ IH]; simpl; [reflexivity |].
  destruct c; try exact IH. discriminate Hev.
Qed.

Lemma emits_no_sleep_cycles {A} (m : M A) s :
  emits no_sleep m ->
  cycles_completed (trace (fst (m s))) = cycles_completed (trace s).
Proof.
  intros H. destruct (emits_events _ m s H) as (evs & -> & Hall).
  rewrite cycles_completed_app, (cycles_completed_no_sleep _ Hall). lia.
Qed.

Lemma control_step_no_sleep w T_sp Kp Ki i :
  emits no_sleep (control_step w T_sp Kp Ki i).
Proof. intros tr0. ctl_invariant; auto; apply extends_log; auto; reflexivity. Qed.

Lemma plot_step_no_sleep w i : emits no_sleep (plot_step w i).
Proof. intros tr0. ctl_invariant; auto; apply extends_log; auto; reflexivity. Qed.

Lemma connect_no_sleep w : emits no_sleep (connect w).
Proof. intros tr0. ctl_invariant; auto; apply extends_log; auto; reflexivity. Qed.

Lemma prepare_no_sleep w T_sp : emits no_sleep (prepare w T_sp).
Proof. intros tr0. ctl_invariant; auto; apply extends_log; auto; reflexivity. Qed.

Lemma cleanup_no_sleep w : emits no_sleep (cleanup w).
Proof. intros tr0. ctl_invariant; auto; apply extends_log; auto; reflexivity. Qed.

Lemma setup_plot_no_sleep w : emits no_sleep (setup_plot w).
Proof.
  intros tr0. ctl_invariant; auto. apply extends_log; auto.
  destruct (setup_calls_plt _ H) as [m ->]. reflexivity.
Qed.

(** ** What a cycle that ran to its end did *)

Lemma int_to_float_Normal z f :
  int_to_float z = Normal f -> f = float_of_int z.
Proof.
  unfold int_to_float. destruct (PrimFloat.is_infinity _); intros H; inversion H.
  reflexivity.
Qed.

Lemma loop_body_Normal w T_sp Kp Ki i s s' :
  loop_body w T_sp Kp Ki i s = (s', Normal tt) ->
  exists v,
    (i < length (t (vars s)))%nat /\
    (i < length (T1 (vars s)))%nat /\
    (i < length (T_sp_array (vars s)))%nat /\
    (i < length (Q1 (vars s)))%nat /\
    vars s' =
      {| t := <[i := float_of_int (Z.of_nat i) * delta_t]> (t (vars s));
         T1 := <[i := v]> (T1 (vars s));
         T_sp_array := <[i := T_sp]> (T_sp_array (vars s));
         Q1 := <[i := commanded T_sp Kp Ki (integral_error (vars s)) v]>
                 (Q1 (vars s));
         integral_error := integrated T_sp Kp Ki (integral_error (vars s)) v;
         lab := lab (vars s) |} /\
    cycles_completed (trace s') = S (cycles_completed (trace s)).
Proof.
  unfold loop_body. intros H.
  apply bind_Normal in H as (s1 & [] & Hctl & H).
  apply bind_Normal in H as (s2 & [] & Hplot & H).
  pose proof (emits_no_sleep_cycles _ s (control_step_no_sleep w T_sp Kp Ki i)) as C1.
  pose proof (emits_no_sleep_cycles _ s1 (plot_step_no_sleep w i)) as C2.
  pose proof (keeps_vars (plot_step w i) s1
                (fun l => plot_step_keeps (fun x => x = l) w i)) as V2.
  rewrite Hctl in C1. rewrite Hplot in C2, V2. simpl in C1, C2, V2.
  unfold wait_step in H. run_inv.
  apply control_step_Normal in Hctl
    as (fi & v & u & Hfi & _ & _ & Ht & HT1 & Hsp & HQ1 & Hvars & _).
  apply int_to_float_Normal in Hfi. subst fi.
  exists v. repeat (split; [assumption |]). split.
  - simpl. rewrite V2. exact Hvars.
  - simpl. rewrite cycles_completed_app, C2, C1.
    change (cycles_completed [(time_sleep (delta_t - 0.05), Returns a)])
      with 1%nat.
    apply Nat.add_1_r.
Qed.

(** ** The pause and the sleep of a cycle *)

Lemma plot_step_ends_with_pause w i s s' :
  plot_step w i s = (s', Normal tt) ->
  exists evs u,
    trace s' = trace s ++ evs ++ [(plt_pause 0.05, Returns u)] /\
    Forall no_wait evs.
Proof.
  unfold plot_step, slice. intros H. ctl_inv.
  repeat match goal with
  | H : context [if ?b then _ else _] |- _ => destruct b
  end; ctl_inv; simpl; rewrite <- ?app_assoc; simpl;
  match goal with
  | |- exists _ _, _ ++ ?l = _ /\ _ => exists (removelast l)
  end; eexists; (split; [reflexivity | simpl; repeat constructor]).
Qed.

Lemma sleep_in_front tr evs pre d o post :
  tr ++ evs = pre ++ (time_sleep d, o) :: post ->
  Forall no_sleep evs ->
  exists post', tr = pre ++ (time_sleep d, o) :: post'.
Proof.
  intros E Hall. apply app_eq_app in E as [l [[E1 E2] | [E1 E2]]].
  - destruct l as [| x l].
    + simpl in E2. subst evs. inversion Hall as [| ? ? Hx _]. discriminate Hx.
    + injection E2 as <- _. exists l. exact E1.
  - subst evs. apply Forall_app in Hall as [_ Hall].
    inversion Hall as [| ? ? Hx _]. discriminate Hx.
Qed.

Lemma sleeps_follow_pause_app tr evs :
  sleeps_follow_pause tr -> Forall no_sleep evs -> sleeps_follow_pause (tr ++ evs).
Proof.
  intros P Hall pre d o post E.
  destruct (sleep_in_front _ _ _ _ _ _ E Hall) as [post' E'].
  exact (P _ _ _ _ E').
Qed.

Lemma sleeps_follow_pause_sleep tr u o :
  sleeps_follow_pause (tr ++ [(plt_pause 0.05, Returns u)]) ->
  sleeps_follow_pause
    (tr ++ [(plt_pause 0.05, Returns u); (time_sleep (delta_t - 0.05), o)]).
Proof.
  intros P pre d o' post E.
  destruct (exists_last (l := (time_sleep d, o') :: post)) as (body & x & Eb);
    [discriminate |].
  destruct post as [| y post].
  - change (tr ++ [(plt_pause 0.05, Returns u); (time_sleep (delta_t - 0.05), o)])
      with (tr ++ [(plt_pause 0.05, Returns u)] ++ [(time_sleep (delta_t - 0.05), o)]) in E.
    rewrite app_assoc in E. apply app_inj_tail in E as [E1 E2].
    injection E2 as <- _. split; [reflexivity |].
    exists tr, u. symmetry. exact E1.
  - destruct (exists_last (l := y :: post)) as (post' & z & Ep); [discriminate |].
    rewrite Ep in E.
    change (tr ++ [(plt_pause 0.05, Returns u); (time_sleep (delta_t - 0.05), o)])
      with (tr ++ [(plt_pause 0.05, Returns u)] ++ [(time_sleep (delta_t - 0.05), o)]) in E.
    rewrite app_assoc in E.
    change (pre ++ (time_sleep d, o') :: post' ++ [z])
      with (pre ++ ((time_sleep d, o') :: post') ++ [z]) in E.
    rewrite (app_assoc pre) in E.
    apply app_inj_tail in E as [E1 _].
    exact (P _ _ _ _ E1).
Qed.

Lemma sleeps_follow_pause_log ev s :
  no_sleep ev -> sleeps_follow_pause (trace s) ->
  sleeps_follow_pause (trace (log ev s)).
Proof.
  intros Hev P. simpl. apply sleeps_follow_pause_app; [exact P |].
  repeat constructor. exact Hev.
Qed.

Lemma loop_body_sleeps_follow_pause w T_sp Kp Ki i :
  invariant (fun s => sleeps_follow_pause (trace s)) (loop_body w T_sp Kp Ki i).
Proof.
  intros s P.
  destruct (emits_events _ _ s (control_step_no_sleep w T_sp Kp Ki i))
    as (evs1 & E1 & A1).
  unfold loop_body, bind at 1.
  destruct (control_step w T_sp Kp Ki i s) as [s1 [[] | e]]; cbn [fst snd] in *.
  2: { rewrite E1. apply sleeps_follow_pause_app; assumption. }
  assert (P1 : sleeps_follow_pause (trace s1)).
  { rewrite E1. apply sleeps_follow_pause_app; assumption. }
  destruct (emits_events _ _ s1 (plot_step_no_sleep w i)) as (evs2 & E2 & A2).
  unfold bind at 1.
  destruct (plot_step w i s1) as [s2 [[] | e]] eqn:Hplot; cbn [fst snd] in *.
  2: { rewrite E2. apply sleeps_follow_pause_app; assumption. }
  apply plot_step_ends_with_pause in Hplot as (evs & u & E3 & _).
  assert (P2 : sleeps_follow_pause (trace s2)).
  { rewrite E2. apply sleeps_follow_pause_app; assumption. }
  rewrite E3, app_assoc in P2.
  unfold wait_step, bind, perform.
  destruct (w (length (trace s2)) (time_sleep (delta_t - 0.05)));
    cbn [fst snd log trace ret];
    rewrite E3, app_assoc, <- app_assoc;
    apply sleeps_follow_pause_sleep; exact P2.
Qed.

Lemma run_sleeps_follow_pause w duration T_sp Kp Ki :
  invariant (fun s => sleeps_follow_pause (trace s))
    (run_pi_controller w duration T_sp Kp Ki).
Proof.
  unfold run_pi_controller.
  repeat first
    [ apply loop_body_sleeps_follow_pause
    | progress invariant_steps
    | progress cbv zeta
    | progress unfold main_try, connect, prepare, cleanup, release, handler,
        setup_plot, allocate ];
    try assumption;
    try (apply sleeps_follow_pause_log; [reflexivity | assumption]).
  apply sleeps_follow_pause_log; [ | assumption ].
  destruct (setup_calls_plt _ H) as [m ->]. reflexivity.
Qed.

(** C7, as the code has it.  A cycle that runs to its end makes its calls,
    none of them a pause or a sleep, then pauses the plot for 0.05 s and
    then sleeps for [delta_t - 0.05].  In every run, whatever the world does
    and however long its calls take, each call of [time.sleep] is passed
    [delta_t - 0.05 = 1.95], which is positive, and stands directly after a
    plot pause of 0.05 s that returned; every [plt.pause] is passed 0.05. *)
Theorem sleep_is_period_less_pause w duration T_sp Kp Ki :
  (forall i s s', loop_body w T_sp Kp Ki i s = (s', Normal tt) ->
     exists work u v,
       trace s' =
         trace s ++ work ++ [(plt_pause 0.05, Returns u);
                             (time_sleep (delta_t - 0.05), Returns v)] /\
       Forall no_wait work) /\
  (forall pre d o post,
     trace (fst (run_pi_controller w duration T_sp Kp Ki initial))
       = pre ++ (time_sleep d, o) :: post ->
     d = delta_t - 0.05 /\ d = 1.95 /\ PrimFloat.ltb 0 d = true /\
     exists pre' u, pre = pre' ++ [(plt_pause 0.05, Returns u)]) /\
  (forall d o,
     In (plt_pause d, o)
        (trace (fst (run_pi_controller w duration T_sp Kp Ki initial))) ->
     d = 0.05).
Proof.
  split; [| split].
  - intros i s s' H. unfold loop_body in H.
    apply bind_Normal in H as (s1 & [] & Hctl & H).
    apply bind_Normal in H as (s2 & [] & Hplot & H).
    apply control_step_Normal in Hctl
      as (fi & v & u & _ & _ & _ & _ & _ & _ & _ & _ & E1).
    apply plot_step_ends_with_pause in Hplot as (evs & u2 & E2 & A2).
    unfold wait_step in H. run_inv.
    eexists (_ :: _ :: evs), u2, _. split.
    + simpl. rewrite E2, E1, <- !app_assoc. reflexivity.
    + repeat (constructor; [exact I |]). exact A2.
  - intros pre d o post E.
    assert (P0 : sleeps_follow_pause (trace initial)).
    { intros p d' o' q E'. destruct p; discriminate E'. }
    destruct (run_sleeps_follow_pause w duration T_sp Kp Ki initial P0
                _ _ _ _ E) as [-> Hpre].
    repeat (split; [reflexivity |]). exact Hpre.
  - intros d o Hin.
    destruct (emits_events fixed_waits _ initial
                (run_emits_fixed_waits w duration T_sp Kp Ki))
      as (evs & Htr & Hall).
    rewrite Htr in Hin. simpl in Hin.
    rewrite List.Forall_forall in Hall. exact (Hall _ Hin).
Qed.

(** ** The loop *)

(** After [k] cycles from index [a] that all ran to their end: [k] more
    sleeps, arrays of the same lengths, the entries [a .. a+k-1] of [t] and
    [T_sp_array] written, the entries below [a] untouched. *)
Lemma cycles_Normal w T_sp Kp Ki k : forall a s s',
  for_each (seq a k) (loop_body w T_sp Kp Ki) s = (s', Normal tt) ->
  cycles_completed (trace s') = (cycles_completed (trace s) + k)%nat /\
  length (t (vars s')) = length (t (vars s)) /\
  length (T1 (vars s')) = length (T1 (vars s)) /\
  length (T_sp_array (vars s')) = length (T_sp_array (vars s)) /\
  length (Q1 (vars s')) = length (Q1 (vars s)) /\
  lab (vars s') = lab (vars s) /\
  (forall j, (j < a)%nat ->
     t (vars s') !! j = t (vars s) !! j /\
     T_sp_array (vars s') !! j = T_sp_array (vars s) !! j) /\
  (forall j, (a <= j < a + k)%nat ->
     t (vars s') !! j = Some (float_of_int (Z.of_nat j) * delta_t) /\
     T_sp_array (vars s') !! j = Some T_sp).
Proof.
  induction k as [| k IH]; intros a s s' H.
  - simpl in H. run_inv. rewrite Nat.add_0_r.
    repeat (split; [reflexivity |]). split.
    + intros j _. split; reflexivity.
    + intros j Hj. exfalso. clear -Hj. lia.
  - simpl in H. apply bind_Normal in H as (s1 & [] & Hbody & H).
    apply IH in H as (Hc & Ht & HT1 & Hsp & HQ1 & Hlab & Hlow & Hnew).
    apply loop_body_Normal in Hbody
      as (v & Lt & LT1 & Lsp & LQ1 & Hvars & Hc1).
    rewrite Hvars in *. simpl in *.
    rewrite !length_insert in *.
    repeat (split; [first [assumption | rewrite Hc, Hc1; clear; lia] |]).
    split.
    + intros j Hj. destruct (Hlow j) as [E1 E2]; [clear -Hj; lia |].
      rewrite E1, E2.
      rewrite !list_lookup_insert_ne by (clear -Hj; lia).
      split; reflexivity.
    + intros j Hj. destruct (Nat.eq_dec j a) as [-> | Hne].
      * destruct (Hlow a) as [E1 E2]; [clear; lia |].
        rewrite E1, E2.
        rewrite !list_lookup_insert_eq by assumption.
        split; reflexivity.
      * apply Hnew. clear -Hj Hne. lia.
Qed.

(** ** The phases of a run *)

Lemma zeros_Normal shortage n z :
  Np.zeros shortage n = Normal z ->
  (0 <= n)%Z /\ z = replicate (Z.to_nat n) 0.
Proof.
  unfold Np.zeros. destruct (Z.ltb_spec n 0) as [Hneg | Hpos]; [discriminate |].
  destruct (2 ^ 63 - 1 <? 8 * n)%Z; [discriminate |].
  destruct shortage; [discriminate |].
  intros H. injection H as <-. auto.
Qed.

Lemma allocate_Normal w duration s s1 n :
  allocate w duration s = (s1, Normal n) ->
  int_of_float (duration / delta_t) = Normal n /\
  (0 <= n)%Z /\
  vars s1 = {| t := replicate (Z.to_nat n) 0; T1 := replicate (Z.to_nat n) 0;
               T_sp_array := replicate (Z.to_nat n) 0;
               Q1 := replicate (Z.to_nat n) 0;
               integral_error := 0; lab := None |} /\
  trace s1 = trace s.
Proof.
  unfold allocate. intros H. run_inv.
  unfold truediv in Hlift4.
  change (PrimFloat.eqb delta_t 0) with false in Hlift4.
  injection Hlift4 as <-.
  apply zeros_Normal in Hlift as [_ ->]. apply zeros_Normal in Hlift0 as [_ ->].
  apply zeros_Normal in Hlift1 as [_ ->]. apply zeros_Normal in Hlift2 as [Hpos ->].
  auto.
Qed.

Lemma connect_Normal w s s' :
  connect w s = (s', Normal tt) ->
  exists v,
    vars s' = with_lab (Some TCLab) (vars s) /\
    trace s' = trace s ++ [(print Connecting, Returns 0);
                           (tclab_TCLab, Returns v);
                           (print Connected, Returns 0)].
Proof.
  unfold connect. intros H. run_inv. exists a0. simpl.
  rewrite <- !app_assoc. auto.
Qed.

Lemma prepare_keeps J w T_sp : keeps J (prepare w T_sp).
Proof. unfold keeps. ctl_invariant; auto. Qed.

Lemma setup_plot_keeps J w : keeps J (setup_plot w).
Proof. unfold keeps. ctl_invariant; auto. Qed.

Lemma cleanup_keeps J w : keeps J (cleanup w).
Proof. unfold keeps. ctl_invariant; auto. Qed.

Lemma main_try_Normal w T_sp Kp Ki n s s' :
  main_try w T_sp Kp Ki n s = (s', Normal tt) ->
  cycles_completed (trace s') = (cycles_completed (trace s) + n)%nat /\
  length (t (vars s')) = length (t (vars s)) /\
  length (T1 (vars s')) = length (T1 (vars s)) /\
  length (T_sp_array (vars s')) = length (T_sp_array (vars s)) /\
  length (Q1 (vars s')) = length (Q1 (vars s)) /\
  (forall j, (j < n)%nat ->
     t (vars s') !! j = Some (float_of_int (Z.of_nat j) * delta_t) /\
     T_sp_array (vars s') !! j = Some T_sp).
Proof.
  unfold main_try. intros H.
  apply bind_Normal in H as (s1 & [] & Hcon & H).
  apply bind_Normal in H as (s2 & [] & Hpre & H).
  apply bind_Normal in H as (s3 & [] & Hloop & H).
  apply say_Normal in H. subst s'.
  pose proof (emits_no_sleep_cycles _ s (connect_no_sleep w)) as C1.
  pose proof (emits_no_sleep_cycles _ s1 (prepare_no_sleep w T_sp)) as C2.
  pose proof (keeps_vars (prepare w T_sp) s1
                (fun l => prepare_keeps (fun x => x = l) w T_sp)) as V2.
  rewrite Hcon in C1. rewrite Hpre in C2, V2. simpl in C1, C2, V2.
  apply connect_Normal in Hcon as (v & V1 & _).
  apply cycles_Normal in Hloop
    as (Hc & Ht & HT1 & Hsp & HQ1 & _ & _ & Hnew).
  rewrite V2, V1 in *. simpl in *.
  rewrite cycles_completed_app, Hc, C2, C1.
  change (cycles_completed [(print RunComplete, Returns 0)]) with 0%nat.
  rewrite Nat.add_0_r.
  repeat (split; [first [reflexivity | assumption] |]).
  intros j Hj. apply Hnew. clear -Hj. lia.
Qed.

(** ** Reported errors *)

Lemma error_reported_app tr evs :
  error_reported (tr ++ evs) = error_reported tr || error_reported evs.
Proof. unfold error_reported. apply existsb_app. Qed.

(** A [try] statement that returned normally without reporting an error
    ran its body to the end. *)
Lemma try_Normal_unreported w T_sp Kp Ki n s s' :
  try_except_finally (main_try w T_sp Kp Ki n) handler (cleanup w) s
    = (s', Normal tt) ->
  error_reported (trace s') = false ->
  exists s3, main_try w T_sp Kp Ki n s = (s3, Normal tt) /\
             s' = fst (cleanup w s3).
Proof.
  rewrite try_except_finally_phases. unfold after_handler.
  destruct (main_try w T_sp Kp Ki n s) as [s3 [[] | e]] eqn:Hbody; simpl.
  - intros H _. exists s3. split; [reflexivity |]. inversion H. reflexivity.
  - intros H Hrep. exfalso.
    destruct (is_Exception e); simpl in H.
    + inversion H as [[Hs Hr]]. subst s'.
      destruct (emits_events _ (cleanup w)
                  (log (print (ErrorOccurred e), Returns 0) s3)
                  (cleanup_no_sleep w)) as (evs & Htr & _).
      rewrite Htr in Hrep. simpl in Hrep.
      rewrite !error_reported_app in Hrep. simpl in Hrep.
      rewrite orb_true_r in Hrep. discriminate.
    + destruct (snd (cleanup w s3)); inversion H.
Qed.

(** C5.  For a duration greater than zero, a run that returns normally
    without reporting an error ran exactly [n] cycles to their end, where
    [n] is the floor of [duration / delta_t] and [delta_t] is 2.0; its four
    arrays hold [n] samples each, and sample [i] carries the timestamp
    [i * delta_t] and the setpoint. *)
Theorem completed_run_has_floor_cycles w duration T_sp Kp Ki s' :
  PrimFloat.ltb 0 duration = true ->
  run_pi_controller w duration T_sp Kp Ki initial = (s', Normal tt) ->
  error_reported (trace s') = false ->
  exists n : nat,
    delta_t = 2.0 /\
    floor_of_float (duration / delta_t) = Normal (Z.of_nat n) /\
    cycles_completed (trace s') = n /\
    length (t (vars s')) = n /\
    length (T1 (vars s')) = n /\
    length (T_sp_array (vars s')) = n /\
    length (Q1 (vars s')) = n /\
    forall i, (i < n)%nat ->
      t (vars s') !! i = Some (float_of_int (Z.of_nat i) * delta_t) /\
      T_sp_array (vars s') !! i = Some T_sp.
Proof.
  intros Hpos Hrun Hrep. unfold run_pi_controller in Hrun.
  apply bind_Normal in Hrun as (s1 & nz & Halloc & Hrun).
  apply bind_Normal in Hrun as (s2 & [] & Hsetup & Hrun).
  apply try_Normal_unreported in Hrun as (s3 & Hbody & ->); [ | exact Hrep ].
  apply allocate_Normal in Halloc as (Hn & Hnz & V1 & T1).
  pose proof (emits_no_sleep_cycles _ s1 (setup_plot_no_sleep w)) as C2.
  pose proof (keeps_vars (setup_plot w) s1
                (fun l => setup_plot_keeps (fun x => x = l) w)) as V2.
  rewrite Hsetup in C2, V2. simpl in C2, V2.
  apply main_try_Normal in Hbody as (Hc & Ht & HT1 & Hsp & HQ1 & Hnew).
  pose proof (emits_no_sleep_cycles _ s3 (cleanup_no_sleep w)) as C4.
  pose proof (keeps_vars (cleanup w) s3
                (fun l => cleanup_keeps (fun x => x = l) w)) as V4.
  exists (Z.to_nat nz). rewrite Z2Nat.id by exact Hnz.
  rewrite C4, V4, Hc, C2, T1, Ht, HT1, Hsp, HQ1, V2, V1. simpl.
  rewrite !length_replicate.
  split; [reflexivity |].
  split; [apply FloatFacts.int_of_positive_quotient; assumption |].
  repeat (split; [reflexivity |]). exact Hnew.
Qed.

(** ** Exceptions *)

Ltac pure_exception :=
  match goal with
  | H : _ = Raised ?e |- is_Exception ?e = true =>
      unfold int_to_float, Np.setitem, Np.getitem, Np.amin, Np.amax in H;
      repeat match type of H with
             | context [match ?x with _ => _ end] => destruct x
             end;
      inversion H; reflexivity
  end.

Ltac ctl_raises :=
  repeat first
    [ progress raises_steps
    | progress cbv zeta
    | progress unfold loop_body, control_step, plot_step, wait_step, main_try,
        connect, prepare, store, load, slice ].

(** When the world raises only instances of [Exception], so does the body
    of the [try]. *)
Lemma main_try_raises_Exception w T_sp Kp Ki n :
  (forall k c e, w k c = Raises e -> is_Exception e = true) ->
  raises_only (fun e => is_Exception e = true) (main_try w T_sp Kp Ki n).
Proof.
  intros Hw. ctl_raises; try pure_exception; eauto.
Qed.











(** ** Draining *)

Lemma quiet_no_connect ev : quiet ev -> no_connect ev.
Proof. unfold quiet, no_connect. intros H E. rewrite E in H. discriminate. Qed.

Lemma quiet_no_heater ev : quiet ev -> no_heater ev.
Proof. unfold quiet, no_heater. intros H x E. rewrite E in H. discriminate. Qed.

Lemma quiet_no_drain ev : quiet ev -> drain_call (fst ev) = false.
Proof.
  unfold quiet. destruct ev as [c o]. simpl.
  destruct c; simpl; congruence.
Qed.

(** The two plotting calls that end the [finally] block. *)
Lemma closing_quiet w :
  emits quiet
    (bind (perform w (plt "plt.ioff"))
       (fun _ => bind (perform w (plt "plt.show")) (fun _ => ret tt))).
Proof. intros tr0. ctl_invariant; apply extends_log; auto; reflexivity. Qed.

Lemma before_try_quiet w duration :
  emits quiet (bind (allocate w duration) (fun _ => setup_plot w)).
Proof.
  intros tr0. ctl_invariant; auto. apply extends_log; [ | assumption ].
  destruct (setup_calls_plt _ H) as [m ->]. reflexivity.
Qed.

Lemma cleanup_unconnected w s :
  lab (vars s) = None ->
  exists post,
    trace (fst (cleanup w s)) = trace s ++ (print EnsuringClosed, Returns 0) :: post /\
    Forall quiet post.
Proof.
  intros Hlab. unfold cleanup, bind at 1. unfold say at 1. cbv beta iota.
  unfold bind at 1. unfold release at 1. unfold bind at 1. unfold get at 1.
  cbn [vars log]. rewrite Hlab. unfold ret at 1.
  destruct (emits_events _ _ (log (print EnsuringClosed, Returns 0) s)
              (closing_quiet w)) as (post & Htr & Hq).
  exists post. split; [ | exact Hq ].
  rewrite Htr. cbn [trace log]. rewrite <- app_assoc. reflexivity.
Qed.

Lemma cleanup_connected w s h :
  lab (vars s) = Some h ->
  exists o post,
    trace (fst (cleanup w s)) =
      trace s ++ (print EnsuringClosed, Returns 0) :: (lab_Q1 0, o) :: post /\
    Forall no_heater post /\ Forall no_connect post /\
    (forall u, o = Returns u -> exists o' post', post = (lab_close, o') :: post').
Proof.
  intros Hlab. unfold cleanup, bind at 1. unfold say at 1. cbv beta iota.
  set (s1 := log (print EnsuringClosed, Returns 0) s).
  assert (Hlab1 : lab (vars s1) = Some h) by exact Hlab.
  destruct (release_connected w s1 h Hlab1) as (Hres & _ & Htr).
  unfold bind at 1.
  destruct (release w s1) as [s2 r2]. cbn [fst snd] in Hres, Htr. subst r2.
  destruct (emits_events _ _ s2 (closing_quiet w)) as (post & Hpost & Hq).
  rewrite Hpost. clear Hpost.
  assert (Hq1 : Forall no_heater post).
  { eapply List.Forall_impl; [ | exact Hq ]. apply quiet_no_heater. }
  assert (Hq2 : Forall no_connect post).
  { eapply List.Forall_impl; [ | exact Hq ]. apply quiet_no_connect. }
  destruct (w (length (trace s1)) (lab_Q1 0)) as [v | e]; rewrite Htr;
    unfold s1; cbn [trace log]; rewrite <- !app_assoc; cbn [app].
  - eexists _, _. split; [reflexivity |].
    split; [ | split ].
    + constructor; [ | exact Hq1 ]. intros x E. discriminate.
    + constructor; [ | exact Hq2 ]. intros E. discriminate.
    + intros u _. eexists _, _. reflexivity.
  - eexists _, _. split; [reflexivity |].
    split; [exact Hq1 | split; [exact Hq2 |]].
    intros u E. discriminate.
Qed.

Lemma connect_run w s :
  match w (S (length (trace s))) tclab_TCLab with
  | Returns v =>
      connect w s =
        ({| vars := with_lab (Some TCLab) (vars s);
            trace := trace s ++ [(print Connecting, Returns 0);
                                 (tclab_TCLab, Returns v);
                                 (print Connected, Returns 0)] |}, Normal tt)
  | Raises e =>
      connect w s =
        ({| vars := vars s;
            trace := trace s ++ [(print Connecting, Returns 0);
                                 (tclab_TCLab, Raises e)] |}, Raised e)
  end.
Proof.
  unfold connect, bind, say, perform, modify, log. cbn [trace vars].
  rewrite length_app, Nat.add_1_r. cbn [length].
  destruct (w (S (length (trace s))) tclab_TCLab); cbn [trace vars];
    rewrite <- !app_assoc; reflexivity.
Qed.

Lemma after_connect_no_connect w T_sp Kp Ki n :
  emits no_connect (after_connect w T_sp Kp Ki n).
Proof.
  intros tr0. unfold after_connect. ctl_invariant; auto;
    apply extends_log; auto; intros E; discriminate.
Qed.

Lemma after_connect_keeps_lab w T_sp Kp Ki n h :
  keeps (fun l => lab l = h) (after_connect w T_sp Kp Ki n).
Proof.
  unfold keeps, after_connect. ctl_invariant; auto;
    simpl; try assumption;
    match goal with
    | |- lab (with_array ?a _ _) = _ => destruct a; assumption
    end.
Qed.

(** The state the [finally] block starts from, once the connection is
    made: the handle is still bound and no second connection was tried. *)
Lemma after_handler_connected w T_sp Kp Ki n s3 h :
  lab (vars s3) = h ->
  exists evs,
    lab (vars (fst (after_handler (after_connect w T_sp Kp Ki n) handler s3))) = h /\
    trace (fst (after_handler (after_connect w T_sp Kp Ki n) handler s3)) =
      trace s3 ++ evs /\
    Forall no_connect evs.
Proof.
  intros Hlab.
  pose proof (after_connect_keeps_lab w T_sp Kp Ki n h s3 Hlab) as Hk.
  destruct (emits_events _ _ s3 (after_connect_no_connect w T_sp Kp Ki n))
    as (evs & Htr & Hall).
  unfold after_handler.
  destruct (after_connect w T_sp Kp Ki n s3) as [s4 [[] | e]];
    cbn [fst snd] in *.
  - exists evs. auto.
  - destruct (is_Exception e); cbn [fst snd handler say log vars trace].
    + exists (evs ++ [(print (ErrorOccurred e), Returns 0)]).
      split; [exact Hk |]. split.
      * rewrite Htr. symmetry. apply app_assoc.
      * apply Forall_app. split; [exact Hall |].
        repeat constructor. intros E. discriminate.
    + exists evs. auto.
Qed.

Lemma quiet_not_connect o evs :
  Forall quiet evs -> ~ In (tclab_TCLab, o) evs.
Proof.
  intros Hq Hin. rewrite List.Forall_forall in Hq.
  specialize (Hq _ Hin). discriminate Hq.
Qed.

Lemma no_connect_not_connect o evs :
  Forall no_connect evs -> ~ In (tclab_TCLab, o) evs.
Proof.
  intros Hq Hin. rewrite List.Forall_forall in Hq.
  exact (Hq _ Hin eq_refl).
Qed.

(** The run up to the [try] statement: either it ended there, having
    called only matplotlib, or the [try] statement ran from [entry]. *)
Lemma run_reaches_try w duration T_sp Kp Ki :
  let s' := fst (run_pi_controller w duration T_sp Kp Ki initial) in
  exists evs0,
    trace (entry w duration) = evs0 /\ Forall quiet evs0 /\
    lab (vars (entry w duration)) = None /\
    (s' = entry w duration \/
     exists n,
       s' = fst (try_except_finally (main_try w T_sp Kp Ki n) handler
                   (cleanup w) (entry w duration))).
Proof.
  cbv zeta.
  destruct (emits_events _ _ initial (before_try_quiet w duration))
    as (evs0 & Htr & Hq).
  fold (entry w duration) in Htr. simpl in Htr.
  exists evs0. split; [exact Htr |]. split; [exact Hq |].
  unfold run_pi_controller, entry, bind.
  destruct (allocate w duration initial) as [s1 [n | e]] eqn:Ha.
  - apply allocate_Normal in Ha as (_ & _ & V1 & _).
    pose proof (setup_plot_keeps (fun l => lab l = None) w s1) as Hk.
    cbv beta in Hk. rewrite V1 in Hk. specialize (Hk eq_refl).
    destruct (setup_plot w s1) as [s2 [[] | e]]; cbn [fst snd] in *.
    + split; [exact Hk |]. right. exists (Z.to_nat n). reflexivity.
    + split; [exact Hk |]. left. reflexivity.
  - cbn [fst]. split; [ | left; reflexivity ].
    unfold allocate in Ha.
    assert (Hinv : invariant (fun s => lab (vars s) = None) (allocate w duration)).
    { ctl_invariant; auto. }
    specialize (Hinv initial eq_refl). cbv beta in Hinv.
    unfold allocate in Hinv. rewrite Ha in Hinv. exact Hinv.
Qed.

Lemma main_try_connected w T_sp Kp Ki n s s3 :
  connect w s = (s3, Normal tt) ->
  after_handler (main_try w T_sp Kp Ki n) handler s =
  after_handler (after_connect w T_sp Kp Ki n) handler s3.
Proof.
  intros Hc.
  assert (E : main_try w T_sp Kp Ki n s = after_connect w T_sp Kp Ki n s3).
  { unfold main_try. unfold bind at 1. rewrite Hc. reflexivity. }
  unfold after_handler. rewrite E. reflexivity.
Qed.

Lemma main_try_unconnected w T_sp Kp Ki n s s3 e :
  connect w s = (s3, Raised e) ->
  main_try w T_sp Kp Ki n s = (s3, Raised e).
Proof. intros Hc. unfold main_try. unfold bind at 1. rewrite Hc. reflexivity. Qed.

(** C3, as the code has it.  If the run tried to connect and the attempt
    returned, the trace ends with the cleanup: its message, then the
    force-to-zero command, after which the heater is not commanded again,
    and the connection is closed next whenever that command returned.  If
    the attempt raised, there is no handle, and the run neither commands the
    heater nor closes anything. *)
Theorem connected_device_is_drained w duration T_sp Kp Ki o :
  let tr := trace (fst (run_pi_controller w duration T_sp Kp Ki initial)) in
  In (tclab_TCLab, o) tr ->
  match o with
  | Returns _ =>
      exists pre o1 post,
        tr = pre ++ (print EnsuringClosed, Returns 0) :: (lab_Q1 0, o1) :: post /\
        Forall no_heater post /\
        (forall u, o1 = Returns u ->
           exists o' post', post = (lab_close, o') :: post')
  | Raises _ => Forall (fun ev => drain_call (fst ev) = false) tr
  end.
Proof.
  cbv zeta.
  destruct (run_reaches_try w duration T_sp Kp Ki)
    as (evs0 & Htr0 & Hq0 & Hlab0 & [-> | [n ->]]).
  { rewrite Htr0. intros Hin. destruct (quiet_not_connect _ _ Hq0 Hin). }
  rewrite try_except_finally_phases. cbn [fst].
  pose proof (connect_run w (entry w duration)) as Hc.
  destruct (w (S (length (trace (entry w duration)))) tclab_TCLab) as [v0 | e0].
  - (* the connection was made *)
    rewrite (main_try_connected _ _ _ _ _ _ _ Hc).
    match type of Hc with _ = (?s, _) => set (s3 := s) in * end.
    destruct (after_handler_connected w T_sp Kp Ki n s3 (Some TCLab) eq_refl)
      as (evs5 & Hlab5 & Htr5 & Hq5).
    destruct (cleanup_connected w _ TCLab Hlab5)
      as (o1 & post & Htr & Hh & Hnc & Hclose).
    rewrite Htr, Htr5. unfold s3. cbn [trace]. rewrite Htr0.
    intros Hin.
    assert (Ho : o = Returns v0).
    { repeat (apply in_app_or in Hin; destruct Hin as [Hin | Hin]).
      - destruct (quiet_not_connect _ _ Hq0 Hin).
      - simpl in Hin. destruct Hin as [E | [E | [E | []]]]; inversion E.
        reflexivity.
      - destruct (no_connect_not_connect _ _ Hq5 Hin).
      - simpl in Hin. destruct Hin as [E | [E | Hin]]; try discriminate.
        destruct (no_connect_not_connect _ _ Hnc Hin). }
    subst o. eexists _, o1, post. split; [reflexivity |]. auto.
  - (* the connection attempt raised *)
    unfold after_handler.
    rewrite (main_try_unconnected _ _ _ _ _ _ _ _ Hc). cbn [fst snd].
    match type of Hc with _ = (?s, _) => set (s3 := s) in * end.
    assert (H5 : exists evs5,
      lab (vars (fst (if is_Exception e0 then handler e0 s3
                      else (s3, Raised e0)))) = None /\
      trace (fst (if is_Exception e0 then handler e0 s3
                  else (s3, Raised e0))) = trace s3 ++ evs5 /\
      Forall quiet evs5).
    { destruct (is_Exception e0); cbn [fst handler say log vars trace].
      - exists [(print (ErrorOccurred e0), Returns 0)].
        split; [exact Hlab0 |]. split; [reflexivity |].
        repeat constructor.
      - exists []. split; [exact Hlab0 |]. split; [ | constructor ].
        symmetry. apply app_nil_r. }
    destruct H5 as (evs5 & Hlab5 & Htr5 & Hq5).
    destruct (cleanup_unconnected w _ Hlab5) as (post & Htr & Hq).
    rewrite Htr, Htr5. unfold s3. cbn [trace]. rewrite Htr0.
    intros Hin.
    assert (Ho : o = Raises e0).
    { repeat (apply in_app_or in Hin; destruct Hin as [Hin | Hin]).
      - destruct (quiet_not_connect _ _ Hq0 Hin).
      - simpl in Hin. destruct Hin as [E | [E | []]]; inversion E.
        reflexivity.
      - destruct (quiet_not_connect _ _ Hq5 Hin).
      - simpl in Hin. destruct Hin as [E | Hin]; try discriminate.
        destruct (quiet_not_connect _ _ Hq Hin). }
    subst o.
    repeat (apply Forall_app; split).
    + eapply List.Forall_impl; [ | exact Hq0 ]. apply quiet_no_drain.
    + repeat constructor.
    + eapply List.Forall_impl; [ | exact Hq5 ]. apply quiet_no_drain.
    + constructor; [reflexivity |].
      eapply List.Forall_impl; [ | exact Hq ]. apply quiet_no_drain.
Qed.

(** ** The cycle, in general *)

(** X1.  In a cycle whose control step ran to its end, the value stored in
    [Q1[i]] and passed to [lab.Q1] is [np.clip] of
    [OP_bias + Kp * error + Ki * (integral_error + error * delta_t)], and it
    lies in [0.0, 100.0] whenever that raw output is not NaN. *)
Theorem commanded_output_is_clamped w T_sp Kp Ki i s s1 :
  control_step w T_sp Kp Ki i s = (s1, Normal tt) ->
  exists v q u,
    let error := T_sp - v in
    let raw :=
      OP_bias + Kp * error + Ki * (integral_error (vars s) + error * delta_t) in
    T1 (vars s1) !! i = Some v /\
    Q1 (vars s1) !! i = Some q /\
    q = Np.clip raw 0.0 100.0 /\
    trace s1 = trace s ++ [(lab_T1, Returns v); (lab_Q1 q, Returns u)] /\
    (PrimFloat.is_nan raw = false -> between 0.0 q 100.0 = true).
Proof.
  intros Hstep.
  apply control_step_Normal in Hstep
    as (fi & v & u & _ & _ & _ & _ & HT1 & _ & HQ1 & Hvars & Htr).
  exists v, (commanded T_sp Kp Ki (integral_error (vars s)) v), u.
  cbv zeta. rewrite Hvars. simpl.
  rewrite !list_lookup_insert_eq by assumption.
  repeat (split; [first [reflexivity | assumption] |]).
  apply FloatFacts.clip_in_range.
Qed.

(** X2.  In a cycle whose control step ran to its end with the commanded
    output not strictly between 0.0 and 100.0, the integral error after the
    cycle is the value before it with [error * delta_t] added and then
    subtracted, in floating point. *)
Theorem saturated_cycle_adds_then_subtracts w T_sp Kp Ki i s s1 q :
  control_step w T_sp Kp Ki i s = (s1, Normal tt) ->
  Q1 (vars s1) !! i = Some q ->
  strictly_between 0.0 q 100.0 = false ->
  exists T1_i,
    T1 (vars s1) !! i = Some T1_i /\
    integral_error (vars (fst (loop_body w T_sp Kp Ki i s))) =
      integral_error (vars s) + (T_sp - T1_i) * delta_t
        - (T_sp - T1_i) * delta_t.
Proof.
  intros Hstep Hq Hsat. rewrite (loop_body_vars _ _ _ _ _ _ _ Hstep).
  apply control_step_Normal in Hstep
    as (fi & v & u & _ & _ & _ & _ & HT1 & _ & HQ1 & Hvars & _).
  rewrite Hvars in *. simpl in *.
  rewrite list_lookup_insert_eq in Hq by assumption. injection Hq as <-.
  exists v. split.
  - apply list_lookup_insert_eq. assumption.
  - unfold integrated. cbv zeta. rewrite Hsat. reflexivity.
Qed.

(** X3.  When the sensor read of cycle [i] raises, the loop ends there: the
    timestamp [t[i]] is the only thing the cycle wrote, the failed read is
    the only call it made, so no heater command is issued for the cycle and
    no later cycle runs. *)
Theorem failed_read_ends_loop w T_sp Kp Ki i rest s e fi :
  int_to_float (Z.of_nat i) = Normal fi ->
  (i < length (t (vars s)))%nat ->
  w (length (trace s)) lab_T1 = Raises e ->
  for_each (i :: rest) (loop_body w T_sp Kp Ki) s =
    ({| vars := with_array a_t (<[i := fi * delta_t]> (t (vars s))) (vars s);
        trace := trace s ++ [(lab_T1, Raises e)] |}, Raised e).
Proof.
  intros Hfi Hi Hw. cbn [for_each].
  unfold loop_body, control_step, store, bind, lift, get, modify.
  rewrite Hfi. cbn [vars array_of]. unfold Np.setitem.
  apply Nat.ltb_lt in Hi. rewrite Hi.
  unfold perform. cbn [trace]. rewrite Hw. reflexivity.
Qed.

End ControllerFacts.

(** * The controller, further properties *)

Module ControllerMore.

Import Py World Run RunFacts Controller ControllerFacts Tally Plotting.
Local Open Scope float_scope.

(** ** Outputs the run never changes *)

Lemma run_emits_fixed_outputs w duration T_sp Kp Ki :
  emits fixed_outputs (run_pi_controller w duration T_sp Kp Ki).
Proof.
  intros tr0. unfold run_pi_controller. ctl_invariant; auto;
    try (apply extends_log; [exact I || reflexivity | assumption]).
  apply extends_log; [ | assumption ].
  destruct (setup_calls_plt _ H) as [m ->]. exact I.
Qed.

(** X7.  In every run, whatever the parameters and whatever the device
    does, heater 2 is only ever commanded to 0 and the indicator is only
    ever set to 100. *)
Theorem second_heater_stays_off w duration T_sp Kp Ki c o :
  In (c, o) (trace (fst (run_pi_controller w duration T_sp Kp Ki initial))) ->
  match c with
  | lab_Q2 v => v = 0.0
  | lab_LED v => v = 100.0
  | _ => True
  end.
Proof.
  intros Hin.
  destruct (emits_events fixed_outputs _ initial
              (run_emits_fixed_outputs w duration T_sp Kp Ki))
    as (evs & Htr & Hall).
  rewrite Htr in Hin. simpl in Hin.
  rewrite List.Forall_forall in Hall. exact (Hall _ Hin).
Qed.

(** ** The order of the calls to the device *)

(** The trace of a run: plotting only, or plotting, the connection message,
    one connection attempt, and then no second attempt; after a failed
    attempt the device is not called at all. *)
Lemma run_trace_shape w duration T_sp Kp Ki :
  let tr := trace (fst (run_pi_controller w duration T_sp Kp Ki initial)) in
  Forall quiet tr \/
  exists evs0 o rest,
    tr = (evs0 ++ [(print Connecting, Returns 0)]) ++ (tclab_TCLab, o) :: rest /\
    Forall quiet (evs0 ++ [(print Connecting, Returns 0)]) /\
    Forall no_connect rest /\
    (forall e, o = Raises e -> Forall quiet rest).
Proof.
  cbv zeta.
  destruct (run_reaches_try w duration T_sp Kp Ki)
    as (evs0 & Htr0 & Hq0 & Hlab0 & [-> | [n ->]]).
  { left. rewrite Htr0. exact Hq0. }
  right. rewrite try_except_finally_phases. cbn [fst].
  assert (Hq0' : Forall quiet (evs0 ++ [(print Connecting, Returns 0)])).
  { apply Forall_app. split; [exact Hq0 | repeat constructor]. }
  pose proof (connect_run w (entry w duration)) as Hc.
  destruct (w (S (length (trace (entry w duration)))) tclab_TCLab) as [v0 | e0].
  - rewrite (main_try_connected _ _ _ _ _ _ _ Hc).
    match type of Hc with _ = (?s, _) => set (s3 := s) in * end.
    destruct (after_handler_connected w T_sp Kp Ki n s3 (Some TCLab) eq_refl)
      as (evs5 & Hlab5 & Htr5 & Hq5).
    destruct (cleanup_connected w _ TCLab Hlab5)
      as (o1 & post & Htr & _ & Hnc & _).
    rewrite Htr, Htr5. unfold s3. cbn [trace]. rewrite Htr0.
    exists evs0, (Returns v0).
    exists ((print Connected, Returns 0) :: evs5 ++
            (print EnsuringClosed, Returns 0) :: (lab_Q1 0, o1) :: post).
    split; [ | split; [exact Hq0' | split] ].
    + rewrite <- !app_assoc. reflexivity.
    + constructor; [intros E; discriminate |].
      apply Forall_app. split; [exact Hq5 |].
      constructor; [intros E; discriminate |].
      constructor; [intros E; discriminate | exact Hnc].
    + intros e E. discriminate.
  - unfold after_handler.
    rewrite (main_try_unconnected _ _ _ _ _ _ _ _ Hc). cbn [fst snd].
    match type of Hc with _ = (?s, _) => set (s3 := s) in * end.
    assert (H5 : exists evs5,
      lab (vars (fst (if is_Exception e0 then handler e0 s3
                      else (s3, Raised e0)))) = None /\
      trace (fst (if is_Exception e0 then handler e0 s3
                  else (s3, Raised e0))) = trace s3 ++ evs5 /\
      Forall quiet evs5).
    { destruct (is_Exception e0); cbn [fst handler say log vars trace].
      - exists [(print (ErrorOccurred e0), Returns 0)].
        split; [exact Hlab0 |]. split; [reflexivity |].
        repeat constructor.
      - exists []. split; [exact Hlab0 |]. split; [ | constructor ].
        symmetry. apply app_nil_r. }
    destruct H5 as (evs5 & Hlab5 & Htr5 & Hq5).
    destruct (cleanup_unconnected w _ Hlab5) as (post & Htr & Hq).
    rewrite Htr, Htr5. unfold s3. cbn [trace]. rewrite Htr0.
    assert (Hrest : Forall quiet
                      (evs5 ++ (print EnsuringClosed, Returns 0) :: post)).
    { apply Forall_app. split; [exact Hq5 |].
      constructor; [reflexivity | exact Hq]. }
    exists evs0, (Raises e0), (evs5 ++ (print EnsuringClosed, Returns 0) :: post).
    split; [ | split; [exact Hq0' | split] ].
    + rewrite <- !app_assoc. reflexivity.
    + eapply List.Forall_impl; [ | exact Hrest ]. apply quiet_no_connect.
    + intros _ _. exact Hrest.
Qed.

(** Where an event that fails [P] can stand in a list whose first part
    satisfies [P]. *)
Lemma locate_after {A} (P : A -> Prop) (front : list A) y rest pre x post :
  Forall P front -> ~ P x ->
  front ++ y :: rest = pre ++ x :: post ->
  (pre = front /\ x = y /\ post = rest) \/
  exists mid, pre = front ++ y :: mid /\ rest = mid ++ x :: post.
Proof.
  intros Hfront Hx. revert pre.
  induction Hfront as [| a front Ha _ IH]; intros pre E.
  - destruct pre as [| b pre]; simpl in E.
    + left. inversion E. auto.
    + right. inversion E; subst. exists pre. auto.
  - destruct pre as [| b pre]; simpl in E.
    + inversion E; subst. contradiction.
    + inversion E; subst.
      destruct (IH pre H1) as [(-> & -> & ->) | (mid & -> & ->)].
      * left. auto.
      * right. exists mid. auto.
Qed.

(** X8.  A run never calls the device without a handle: every call to the
    driver other than the connection attempt stands, in the trace, after a
    connection attempt that returned. *)
Theorem device_calls_follow_connection w duration T_sp Kp Ki pre c o post :
  trace (fst (run_pi_controller w duration T_sp Kp Ki initial))
    = pre ++ (c, o) :: post ->
  device_call c = true -> c <> tclab_TCLab ->
  exists v, In (tclab_TCLab, Returns v) pre.
Proof.
  intros Htr Hdev Hc.
  assert (Hnq : ~ quiet (c, o)).
  { unfold quiet. simpl. rewrite Hdev. discriminate. }
  destruct (run_trace_shape w duration T_sp Kp Ki)
    as [Hall | (evs0 & o' & rest & E & Hq0 & _ & Hfail)].
  - exfalso. rewrite Htr in Hall. apply Forall_app in Hall as [_ Hall].
    inversion Hall; subst. contradiction.
  - rewrite Htr in E. symmetry in E.
    destruct (locate_after quiet _ _ _ _ _ _ Hq0 Hnq E)
      as [(_ & Ex & _) | (mid & -> & Hrest)].
    { inversion Ex. contradiction. }
    destruct o' as [v | e].
    + exists v. apply in_or_app. right. left. reflexivity.
    + exfalso. specialize (Hfail e eq_refl). rewrite Hrest in Hfail.
      apply Forall_app in Hfail as [_ Hfail]. inversion Hfail; subst.
      contradiction.
Qed.

(** X9.  A run tries to connect at most once: around a connection attempt
    in the trace there is no other. *)
Theorem at_most_one_connection_attempt w duration T_sp Kp Ki pre o post :
  trace (fst (run_pi_controller w duration T_sp Kp Ki initial))
    = pre ++ (tclab_TCLab, o) :: post ->
  Forall no_connect pre /\ Forall no_connect post.
Proof.
  intros Htr.
  assert (Hnq : ~ quiet (tclab_TCLab, o)) by (unfold quiet; simpl; discriminate).
  destruct (run_trace_shape w duration T_sp Kp Ki)
    as [Hall | (evs0 & o' & rest & E & Hq0 & Hnc & _)].
  - exfalso. rewrite Htr in Hall. apply Forall_app in Hall as [_ Hall].
    inversion Hall; subst. contradiction.
  - rewrite Htr in E. symmetry in E.
    destruct (locate_after quiet _ _ _ _ _ _ Hq0 Hnq E)
      as [(-> & _ & ->) | (mid & _ & Hrest)].
    + split; [ | exact Hnc ].
      eapply List.Forall_impl; [ | exact Hq0 ]. apply quiet_no_connect.
    + exfalso. rewrite Hrest in Hnc.
      apply Forall_app in Hnc as [_ Hnc]. inversion Hnc; subst.
      match goal with H : no_connect _ |- _ => exact (H eq_refl) end.
Qed.

(** ** The anti-windup test *)

(** Testing the clamped output against the open interval is testing the raw
    output against it; a NaN fails both. *)
Lemma strictly_between_clip x :
  strictly_between 0.0 (Np.clip x 0.0 100.0) 100.0 = strictly_between 0.0 x 100.0.
Proof.
  unfold Np.clip, Np.clip_max, Np.clip_min, strictly_between.
  destruct (PrimFloat.is_nan x) eqn:Hnan.
  - rewrite Hnan. reflexivity.
  - destruct (PrimFloat.ltb 0 x) eqn:H0.
    + rewrite Hnan. destruct (PrimFloat.ltb x 100) eqn:H100.
      * rewrite H0, H100. reflexivity.
      * reflexivity.
    + reflexivity.
Qed.

(** X10.  In a cycle whose control step ran to its end, the integral error
    is advanced by [error * delta_t] exactly when the raw output
    [OP_bias + Kp * error + Ki * (integral_error + error * delta_t)] is
    strictly between 0.0 and 100.0; otherwise, and in particular when the
    raw output is NaN, [error * delta_t] is added and subtracted again. *)
Theorem freeze_is_decided_by_raw_output w T_sp Kp Ki i s s1 :
  control_step w T_sp Kp Ki i s = (s1, Normal tt) ->
  exists v,
    let error := T_sp - v in
    let ie := integral_error (vars s) in
    let raw := OP_bias + Kp * error + Ki * (ie + error * delta_t) in
    T1 (vars s1) !! i = Some v /\
    integral_error (vars s1) =
      if strictly_between 0.0 raw 100.0
      then ie + error * delta_t
      else ie + error * delta_t - error * delta_t.
Proof.
  intros Hstep.
  apply control_step_Normal in Hstep
    as (fi & v & u & _ & _ & _ & _ & HT1 & _ & _ & Hvars & _).
  exists v. cbv zeta. rewrite Hvars. simpl.
  split; [apply list_lookup_insert_eq; assumption |].
  unfold integrated, commanded. cbv zeta.
  rewrite strictly_between_clip. reflexivity.
Qed.

(** ** One read and one command per cycle *)

Lemma tally_app p tr evs :
  tally p (tr ++ evs) = (tally p tr + tally p evs)%nat.
Proof. unfold tally. rewrite List.filter_app. apply length_app. Qed.

Lemma tally_quiet p evs :
  (forall ev, p ev = true -> device_call (fst ev) = true) ->
  Forall quiet evs -> tally p evs = 0%nat.
Proof.
  intros Hp. unfold tally, quiet.
  induction 1 as [| ev evs Hev _ IH]; simpl; [reflexivity |].
  destruct (p ev) eqn:E; [ | exact IH ].
  apply Hp in E. rewrite E in Hev. discriminate.
Qed.

Lemma sensor_read_device ev : sensor_read ev = true -> device_call (fst ev) = true.
Proof. unfold sensor_read. destruct (fst ev); simpl; congruence. Qed.

Lemma heater_command_device ev :
  heater_command ev = true -> device_call (fst ev) = true.
Proof. unfold heater_command. destruct (fst ev); simpl; congruence. Qed.

(** A computation that calls no device leaves both tallies alone. *)
Lemma emits_quiet_tallies {A} (m : M A) s :
  emits quiet m ->
  tally sensor_read (trace (fst (m s))) = tally sensor_read (trace s) /\
  tally heater_command (trace (fst (m s))) = tally heater_command (trace s).
Proof.
  intros H. destruct (emits_events _ m s H) as (evs & -> & Hall).
  rewrite !tally_app.
  rewrite (tally_quiet _ _ sensor_read_device Hall).
  rewrite (tally_quiet _ _ heater_command_device Hall).
  rewrite !Nat.add_0_r. split; reflexivity.
Qed.

Lemma plot_step_quiet w i : emits quiet (plot_step w i).
Proof. intros tr0. ctl_invariant; auto; apply extends_log; auto; reflexivity. Qed.

Lemma wait_step_quiet w : emits quiet (wait_step w).
Proof. intros tr0. ctl_invariant; auto; apply extends_log; auto; reflexivity. Qed.

Lemma connect_tallies w s s' :
  connect w s = (s', Normal tt) ->
  lab (vars s') = Some TCLab /\
  tally sensor_read (trace s') = tally sensor_read (trace s) /\
  tally heater_command (trace s') = tally heater_command (trace s).
Proof.
  intros H. apply connect_Normal in H as (v & -> & ->).
  rewrite !tally_app. split; [reflexivity |].
  split; apply Nat.add_0_r.
Qed.

Lemma prepare_tallies w T_sp s s' :
  prepare w T_sp s = (s', Normal tt) ->
  tally sensor_read (trace s') = S (tally sensor_read (trace s)) /\
  tally heater_command (trace s') = S (tally heater_command (trace s)).
Proof.
  unfold prepare. intros H. run_inv. simpl.
  rewrite <- !app_assoc. simpl. rewrite !tally_app.
  split; apply Nat.add_1_r.
Qed.

Lemma loop_body_tallies w T_sp Kp Ki i s s' :
  loop_body w T_sp Kp Ki i s = (s', Normal tt) ->
  tally sensor_read (trace s') = S (tally sensor_read (trace s)) /\
  tally heater_command (trace s') = S (tally heater_command (trace s)).
Proof.
  unfold loop_body. intros H.
  apply bind_Normal in H as (s1 & [] & Hctl & H).
  apply bind_Normal in H as (s2 & [] & Hplot & H).
  destruct (emits_quiet_tallies _ s1 (plot_step_quiet w i)) as [R2 C2].
  destruct (emits_quiet_tallies _ s2 (wait_step_quiet w)) as [R3 C3].
  rewrite Hplot in R2, C2. rewrite H in R3, C3. simpl in R2, C2, R3, C3.
  apply control_step_Normal in Hctl
    as (fi & v & u & _ & _ & _ & _ & _ & _ & _ & _ & Htr).
  rewrite R3, C3, R2, C2, Htr, !tally_app.
  split; apply Nat.add_1_r.
Qed.

Lemma cycles_tallies w T_sp Kp Ki k : forall a s s',
  for_each (seq a k) (loop_body w T_sp Kp Ki) s = (s', Normal tt) ->
  tally sensor_read (trace s') = (tally sensor_read (trace s) + k)%nat /\
  tally heater_command (trace s') = (tally heater_command (trace s) + k)%nat.
Proof.
  induction k as [| k IH]; intros a s s' H.
  - simpl in H. run_inv. rewrite !Nat.add_0_r. split; reflexivity.
  - simpl in H. apply bind_Normal in H as (s1 & [] & Hbody & H).
    apply IH in H as [R C]. apply loop_body_tallies in Hbody as [R1 C1].
    rewrite R, C, R1, C1. clear. split; lia.
Qed.

Lemma main_try_tallies w T_sp Kp Ki n s s' :
  main_try w T_sp Kp Ki n s = (s', Normal tt) ->
  lab (vars s') = Some TCLab /\
  tally sensor_read (trace s') = (tally sensor_read (trace s) + S n)%nat /\
  tally heater_command (trace s') = (tally heater_command (trace s) + S n)%nat.
Proof.
  unfold main_try. intros H.
  apply bind_Normal in H as (s1 & [] & Hcon & H).
  pose proof (after_connect_keeps_lab w T_sp Kp Ki n (Some TCLab) s1) as Hlab.
  cbv beta in Hlab. unfold after_connect in Hlab. rewrite H in Hlab.
  apply bind_Normal in H as (s2 & [] & Hpre & H).
  apply bind_Normal in H as (s3 & [] & Hloop & H).
  apply say_Normal in H. subst s'.
  apply connect_tallies in Hcon as (L1 & R1 & C1).
  apply prepare_tallies in Hpre as (R2 & C2).
  apply cycles_tallies in Hloop as (R3 & C3).
  split; [exact (Hlab L1) |].
  simpl. rewrite !tally_app, R3, C3, R2, C2, R1, C1.
  change (tally sensor_read [(print RunComplete, Returns 0)]) with 0%nat.
  change (tally heater_command [(print RunComplete, Returns 0)]) with 0%nat.
  clear. split; lia.
Qed.

Lemma cleanup_connected_trace w s h :
  lab (vars s) = Some h ->
  exists o mid post,
    trace (fst (cleanup w s)) =
      trace s ++ (print EnsuringClosed, Returns 0) :: (lab_Q1 0, o) :: mid ++ post /\
    (mid = [] \/ exists o', mid = [(lab_close, o')]) /\
    Forall quiet post.
Proof.
  intros Hlab. unfold cleanup, bind at 1. unfold say at 1. cbv beta iota.
  set (s1 := log (print EnsuringClosed, Returns 0) s).
  assert (Hlab1 : lab (vars s1) = Some h) by exact Hlab.
  destruct (release_connected w s1 h Hlab1) as (Hres & _ & Htr).
  unfold bind at 1.
  destruct (release w s1) as [s2 r2]. cbn [fst snd] in Hres, Htr. subst r2.
  destruct (emits_events _ _ s2 (closing_quiet w)) as (post & Hpost & Hq).
  rewrite Hpost. clear Hpost.
  destruct (w (length (trace s1)) (lab_Q1 0)) as [v | e]; rewrite Htr;
    unfold s1; cbn [trace log]; rewrite <- !app_assoc; cbn [app].
  - eexists _, [_], post. split; [reflexivity |].
    split; [right; eexists; reflexivity | exact Hq].
  - eexists _, [], post. split; [reflexivity |].
    split; [left; reflexivity | exact Hq].
Qed.

Lemma cleanup_tallies w s h :
  lab (vars s) = Some h ->
  tally sensor_read (trace (fst (cleanup w s))) = tally sensor_read (trace s) /\
  tally heater_command (trace (fst (cleanup w s)))
    = S (tally heater_command (trace s)).
Proof.
  intros Hlab.
  destruct (cleanup_connected_trace w s h Hlab)
    as (o & mid & post & -> & Hmid & Hq).
  change ((print EnsuringClosed, Returns 0) :: (lab_Q1 0, o) :: mid ++ post)
    with ([(print EnsuringClosed, Returns 0); (lab_Q1 0, o)] ++ mid ++ post).
  rewrite !tally_app.
  rewrite (tally_quiet _ _ sensor_read_device Hq).
  rewrite (tally_quiet _ _ heater_command_device Hq).
  change (tally sensor_read [(print EnsuringClosed, Returns 0); (lab_Q1 0, o)])
    with 0%nat.
  change (tally heater_command
            [(print EnsuringClosed, Returns 0); (lab_Q1 0, o)]) with 1%nat.
  destruct Hmid as [-> | [o' ->]].
  - change (tally sensor_read []) with 0%nat.
    change (tally heater_command []) with 0%nat. clear. split; lia.
  - change (tally sensor_read [(lab_close, o')]) with 0%nat.
    change (tally heater_command [(lab_close, o')]) with 0%nat.
    clear. split; lia.
Qed.

(** X11.  In a run that returns normally without reporting an error, the
    sensor is read once at start-up and once in each cycle, and heater 1 is
    commanded once at start-up, once in each cycle and once in the cleanup:
    with [n] cycles there are [n + 1] reads and [n + 2] commands. *)
Theorem one_read_and_one_command_per_cycle w duration T_sp Kp Ki s' :
  run_pi_controller w duration T_sp Kp Ki initial = (s', Normal tt) ->
  error_reported (trace s') = false ->
  tally sensor_read (trace s') = S (cycles_completed (trace s')) /\
  tally heater_command (trace s') = S (S (cycles_completed (trace s'))).
Proof.
  intros Hrun Hrep. unfold run_pi_controller in Hrun.
  apply bind_Normal in Hrun as (s1 & nz & Halloc & Hrun).
  apply bind_Normal in Hrun as (s2 & [] & Hsetup & Hrun).
  apply try_Normal_unreported in Hrun as (s3 & Hbody & ->); [ | exact Hrep ].
  apply allocate_Normal in Halloc as (_ & _ & _ & T1).
  pose proof (emits_no_sleep_cycles _ s1 (setup_plot_no_sleep w)) as K2.
  rewrite Hsetup in K2. simpl in K2.
  assert (Q2 : emits quiet (setup_plot w)).
  { intros tr0. ctl_invariant; auto. apply extends_log; [ | assumption ].
    destruct (setup_calls_plt _ H) as [m ->]. reflexivity. }
  destruct (emits_quiet_tallies _ s1 Q2) as [R2 C2].
  rewrite Hsetup in R2, C2. simpl in R2, C2.
  destruct (main_try_tallies _ _ _ _ _ _ _ Hbody) as (Hlab & R3 & C3).
  apply main_try_Normal in Hbody as (K3 & _).
  pose proof (emits_no_sleep_cycles _ s3 (cleanup_no_sleep w)) as K4.
  destruct (cleanup_tallies w s3 TCLab Hlab) as [R4 C4].
  rewrite R4, C4, K4, R3, C3, K3, R2, C2, K2, T1. simpl.
  split; reflexivity.
Qed.

(** ** Durations that give no cycle count *)

Lemma is_nan_Prim2SF x : PrimFloat.is_nan x = true -> Prim2SF x = S754_nan.
Proof.
  unfold PrimFloat.is_nan. rewrite FloatAxioms.eqb_spec. unfold SFeqb, SFcompare.
  destruct (Prim2SF x) as [s | s | | s m e]; try reflexivity.
  - discriminate.
  - destruct s; discriminate.
  - destruct s; rewrite Z.compare_refl, Pos.compare_cont_refl; discriminate.
Qed.

Lemma is_infinity_Prim2SF x :
  PrimFloat.is_infinity x = true -> exists s, Prim2SF x = S754_infinity s.
Proof.
  unfold PrimFloat.is_infinity. rewrite FloatAxioms.eqb_spec, abs_spec.
  change (Prim2SF infinity) with (S754_infinity false).
  destruct (Prim2SF x) as [s | s | | s m e]; try discriminate.
  intros _. exists s. reflexivity.
Qed.

Lemma int_of_nan_quotient d :
  PrimFloat.is_nan d = true ->
  int_of_float (d / delta_t) = Raised ValueError /\
  PrimFloat.is_infinity d = false.
Proof.
  intros H. pose proof (is_nan_Prim2SF d H) as E. split.
  - unfold int_of_float. rewrite div_spec, E. reflexivity.
  - unfold PrimFloat.is_infinity. rewrite FloatAxioms.eqb_spec, abs_spec, E. reflexivity.
Qed.

Lemma int_of_infinite_quotient d :
  PrimFloat.is_infinity d = true ->
  int_of_float (d / delta_t) = Raised OverflowError.
Proof.
  intros H. destruct (is_infinity_Prim2SF d H) as [s E].
  unfold int_of_float. rewrite div_spec, E.
  change (Prim2SF delta_t) with (S754_finite false 4503599627370496 (-51)).
  reflexivity.
Qed.

(** X12.  When the duration is NaN or infinite, or its quotient by the
    period truncates to a negative count, the function raises before it
    plots anything or touches the device: [OverflowError] for an infinite
    duration, [ValueError] otherwise. *)
Theorem unusable_duration_raises_before_any_call w duration T_sp Kp Ki :
  PrimFloat.is_nan duration = true \/
  PrimFloat.is_infinity duration = true \/
  (exists n, int_of_float (duration / delta_t) = Normal n /\ (n < 0)%Z) ->
  run_pi_controller w duration T_sp Kp Ki initial =
    (initial,
     Raised (if PrimFloat.is_infinity duration then OverflowError
             else ValueError)).
Proof.
  intros H. unfold run_pi_controller, allocate, bind, lift, truediv.
  change (PrimFloat.eqb delta_t 0) with false. cbn iota.
  destruct H as [H | [H | (n & Hn & Hneg)]].
  - destruct (int_of_nan_quotient _ H) as [-> ->]. reflexivity.
  - rewrite (int_of_infinite_quotient _ H), H. reflexivity.
  - rewrite Hn. unfold Np.zeros.
    destruct (Z.ltb_spec n 0) as [_ | Hge]; [ | exfalso; clear -Hneg Hge; lia ].
    destruct (PrimFloat.is_infinity duration) eqn:Hinf; [ | reflexivity ].
    rewrite (int_of_infinite_quotient _ Hinf) in Hn. discriminate.
Qed.

(** ** When the freeze is exact *)

Lemma finite_Prim2SF b :
  PrimFloat.ltb (abs b) infinity = true ->
  (exists s, Prim2SF b = S754_zero s) \/
  (exists s m e, Prim2SF b = S754_finite s m e).
Proof.
  rewrite ltb_spec, abs_spec.
  change (Prim2SF infinity) with (S754_infinity false).
  destruct (Prim2SF b) as [s | s | | s m e]; try discriminate.
  - intros _. left. exists s. reflexivity.
  - intros _. right. exists s, m, e. reflexivity.
Qed.

(** Adding a finite number to zero and subtracting it again gives zero. *)
Lemma add_sub_from_zero b :
  PrimFloat.ltb (abs b) infinity = true -> (0 + b - b = 0)%float.
Proof.
  intros H. apply Prim2SF_inj. rewrite sub_spec, add_spec.
  change (Prim2SF 0) with (S754_zero false).
  destruct (finite_Prim2SF b H) as [[s ->] | (s & m & e & ->)].
  - destruct s; reflexivity.
  - unfold SF64add, SFadd, SF64sub, SFsub.
    rewrite Z.sub_diag. reflexivity.
Qed.

(** X13.  A cycle that starts with a zero integral error and saturates on
    a finite error leaves the integral error at exactly zero: while a run
    is saturated from its first cycle on, the integral does not move. *)
Theorem saturated_cycle_keeps_zero_integral w T_sp Kp Ki i s s1 v q :
  control_step w T_sp Kp Ki i s = (s1, Normal tt) ->
  integral_error (vars s) = 0.0 ->
  T1 (vars s1) !! i = Some v ->
  Q1 (vars s1) !! i = Some q ->
  strictly_between 0.0 q 100.0 = false ->
  PrimFloat.ltb (abs ((T_sp - v) * delta_t)) infinity = true ->
  integral_error (vars s1) = 0.0.
Proof.
  intros Hstep Hie Hv Hq Hsat Hfin.
  apply control_step_Normal in Hstep
    as (fi & v' & u & _ & _ & _ & _ & HT1 & _ & HQ1 & Hvars & _).
  rewrite Hvars in *. simpl in *.
  rewrite list_lookup_insert_eq in Hv by assumption. injection Hv as ->.
  rewrite list_lookup_insert_eq in Hq by assumption. injection Hq as <-.
  unfold integrated. cbv zeta. rewrite Hsat, Hie.
  apply add_sub_from_zero. exact Hfin.
Qed.

(** ** The arrays handed to the plot *)

Lemma store_plots_aligned tr0 a i v : invariant (plots_aligned tr0) (store a i v).
Proof.
  intros s [L E]. unfold store, bind, get, lift, modify, Np.setitem. simpl.
  destruct (i <? length (array_of a (vars s)))%nat; simpl; [ | split; assumption ].
  split; [ | exact E ].
  destruct L as (L1 & L2 & L3).
  destruct a; unfold same_lengths; simpl; rewrite ?length_insert; auto.
Qed.

Lemma take_same_length {A} k (x y : list A) :
  length x = length y -> length (take k x) = length (take k y).
Proof. intros H. rewrite !length_take, H. reflexivity. Qed.

Lemma plots_aligned_log tr0 ev s :
  aligned ev -> plots_aligned tr0 s -> plots_aligned tr0 (log ev s).
Proof. intros A [L E]. split; [exact L | apply extends_log; assumption]. Qed.

Lemma plot_step_plots_aligned tr0 w i : invariant (plots_aligned tr0) (plot_step w i).
Proof.
  intros s H. pose proof H as [(L1 & L2 & L3) _].
  unfold plot_step, slice, load, bind, get, ret, lift, perform. simpl.
  repeat match goal with
  | |- context [match ?w ?k ?c with Returns _ => _ | Raises _ => _ end] =>
      destruct (w k c)
  | |- context [match Np.getitem ?a ?i with _ => _ end] => destruct (Np.getitem a i)
  | |- context [match Np.amin ?a with _ => _ end] => destruct (Np.amin a)
  | |- context [match Np.amax ?a with _ => _ end] => destruct (Np.amax a)
  | |- context [if ?b then _ else _] => destruct b
  | |- _ => progress simpl
  end;
  repeat first [ exact H | apply plots_aligned_log ];
  try exact I;
  unfold aligned; simpl; apply take_same_length; congruence.
Qed.

Lemma allocate_plots_aligned tr0 w duration :
  invariant (plots_aligned tr0) (allocate w duration).
Proof.
  intros s [L E]. unfold allocate, bind, lift, modify, truediv.
  change (PrimFloat.eqb delta_t 0) with false. cbn iota.
  destruct (int_of_float (duration / delta_t)) as [n | e]; simpl;
    [ | split; assumption ].
  destruct (Np.zeros (shortage w 0 n) n) as [z0 | e] eqn:Z0; simpl;
    [ apply zeros_Normal in Z0 as [_ ->] | split; assumption ].
  destruct (Np.zeros (shortage w 1 n) n) as [z1 | e] eqn:Z1; simpl;
    [ apply zeros_Normal in Z1 as [_ ->] | split; assumption ].
  destruct (Np.zeros (shortage w 2 n) n) as [z2 | e] eqn:Z2; simpl;
    [ apply zeros_Normal in Z2 as [_ ->] | split; assumption ].
  destruct (Np.zeros (shortage w 3 n) n) as [z3 | e] eqn:Z3; simpl;
    [ apply zeros_Normal in Z3 as [_ ->] | split; assumption ].
  split; [ repeat split | exact E ].
Qed.

Lemma run_plots_aligned tr0 w duration T_sp Kp Ki :
  invariant (plots_aligned tr0) (run_pi_controller w duration T_sp Kp Ki).
Proof.
  unfold run_pi_controller.
  apply invariant_bind; [ apply allocate_plots_aligned | intros n ].
  repeat first
    [ apply store_plots_aligned
    | apply plot_step_plots_aligned
    | progress invariant_steps
    | progress cbv zeta
    | progress unfold loop_body, control_step, wait_step, main_try,
        connect, prepare, cleanup, release, handler, setup_plot, load ];
    try (apply plots_aligned_log; [exact I | assumption]);
    try assumption.
  all: try (match goal with H : plots_aligned _ _ |- _ => destruct H as [L E]; split; [exact L | exact E] end).
  apply plots_aligned_log; [ | assumption ].
  destruct (setup_calls_plt _ H) as [m ->]. exact I.
Qed.

(** X22.  In every run, each call that hands samples to a plot line passes
    as many time stamps as values: the x and y arrays of every [set_data]
    have the same length. *)
Theorem plotted_lines_are_aligned w duration T_sp Kp Ki line xs ys o :
  In (set_data line xs ys, o)
     (trace (fst (run_pi_controller w duration T_sp Kp Ki initial))) ->
  length xs = length ys.
Proof.
  intros Hin.
  assert (H0 : plots_aligned [] initial).
  { split; [repeat split | exists []; split; [reflexivity | constructor]]. }
  destruct (run_plots_aligned [] w duration T_sp Kp Ki initial H0)
    as [_ (evs & Htr & Hall)].
  rewrite Htr in Hin. simpl in Hin.
  rewrite List.Forall_forall in Hall. exact (Hall _ Hin).
Qed.

(** ** Rescaling the temperature axis *)

(** X23.  A cycle's plotting step sets the limits of the temperature axis
    only after the axis reported an upper limit below the reading or a lower
    limit above it (so never for a NaN reading), and then to the least
    reading so far less 5 and the greatest plus 5. *)
Theorem axis_is_rescaled_only_for_a_reading_outside w i s v :
  T1 (vars s) !! i = Some v ->
  exists evs,
    trace (fst (plot_step w i s)) = trace s ++ evs /\
    forall a b o, In (ax1_set_ylim a b, o) evs ->
      ((exists hi, In (ax1_get_ylim 1, Returns hi) evs /\ (hi <? v) = true) \/
       (exists lo, In (ax1_get_ylim 0, Returns lo) evs /\ (v <? lo) = true)) /\
      exists lo' hi',
        Np.amin (take (S i) (T1 (vars s))) = Normal lo' /\
        Np.amax (take (S i) (T1 (vars s))) = Normal hi' /\
        a = lo' - 5 /\ b = hi' + 5.
Proof.
  intros Hv.
  unfold plot_step, slice, load, bind, get, ret, lift, perform, Np.getitem.
  repeat match goal with
  | |- context [match ?w ?k ?c with Returns _ => _ | Raises _ => _ end] =>
      destruct (w k c) eqn:?
  | |- context [T1 (vars s) !! i] => rewrite Hv
  | |- context [match Np.amin ?a with _ => _ end] => destruct (Np.amin a) eqn:?
  | |- context [match Np.amax ?a with _ => _ end] => destruct (Np.amax a) eqn:?
  | |- context [if ?b then _ else _] => destruct b eqn:?
  | |- _ => progress cbn [array_of fst snd vars trace log T1 t T_sp_array Q1]
  end;
  rewrite <- ?app_assoc; cbn [app];
  (eexists; split; [reflexivity | ]);
  intros ylo yhi oc Hin; simpl in Hin;
  repeat (destruct Hin as [Hin | Hin]; [try discriminate Hin | ]);
  try contradiction;
  inversion Hin; subst;
  (split; [ | do 2 eexists; split; [eassumption | split; [eassumption | split; reflexivity]] ]);
  first [ left; eexists; split; [simpl; repeat first [left; reflexivity | right] | assumption]
        | right; eexists; split; [simpl; repeat first [left; reflexivity | right] | assumption] ].
Qed.

(** ** Runs that cannot count their cycles *)

Lemma run_without_cycle_count w duration T_sp Kp Ki e :
  int_of_float (duration / delta_t) = Raised e ->
  run_pi_controller w duration T_sp Kp Ki initial = (initial, Raised e).
Proof.
  intros H. unfold run_pi_controller, allocate, bind, lift, truediv.
  change (PrimFloat.eqb delta_t 0) with false. cbn iota.
  rewrite H. reflexivity.
Qed.

Lemma nan_is_not_nonpositive x :
  PrimFloat.is_nan x = true -> PrimFloat.leb x 0 = false.
Proof.
  intros H. rewrite leb_spec, (is_nan_Prim2SF x H). reflexivity.
Qed.

End ControllerMore.

(** * The console layer *)

Module ConsoleFacts.

Import Py Console.
Local Open Scope float_scope.

Lemma split_no_separator c s :
  contains c s = false -> split c s = [s].
Proof.
  induction s as [| a r IH]; simpl; [reflexivity |].
  destruct (Ascii.eqb a c) eqn:E; simpl; [discriminate |].
  intros H. rewrite (IH H). reflexivity.
Qed.

Lemma split_at_separator c a b :
  contains c a = false ->
  split c (a ++ String c b) = a :: split c b.
Proof.
  induction a as [| x r IH]; simpl.
  - intros _. rewrite Ascii.eqb_refl. reflexivity.
  - destruct (Ascii.eqb x c) eqn:E; simpl; [discriminate |].
    intros H. rewrite (IH H). reflexivity.
Qed.

Lemma contains_separator c a b : contains c (a ++ String c b) = true.
Proof.
  induction a as [| x r IH]; simpl.
  - rewrite Ascii.eqb_refl. reflexivity.
  - rewrite IH. apply orb_true_r.
Qed.

Section prompts.

Variable py_float : string -> result float.

(** X4.  A line [a/b] typed at the Ki prompt, with [a] and [b] accepted by
    [float] and [b] not zero, yields the quotient [a / b]. *)
Theorem ki_of_division a b x y :
  contains slash a = false -> contains slash b = false ->
  py_float a = Normal x -> py_float b = Normal y ->
  PrimFloat.eqb y 0 = false ->
  ki_of_input py_float (a ++ String slash b) = Normal (x / y).
Proof.
  intros Ha Hb Hx Hy Hy0. unfold ki_of_input.
  rewrite contains_separator, (split_at_separator _ _ _ Ha),
    (split_no_separator _ _ Hb).
  unfold unpack_two. rewrite Hx, Hy. unfold truediv. rewrite Hy0.
  reflexivity.
Qed.

(** X5.  At the Ki prompt, lines whose evaluation raises [ValueError] are
    each answered by the complaint and a new prompt, until a line yields a
    value; that value is returned and the lines after it are left
    unread. *)
Theorem ki_prompt_repeats_until_valid bad good v rest stdout :
  Forall (fun line => ki_of_input py_float line = Raised ValueError) bad ->
  ki_of_input py_float good = Normal v ->
  input_ki py_float (bad ++ good :: rest) stdout =
    (Normal v, rest,
     stdout ++ flat_map (fun _ => [Prompt AskKi; Invalid AskKi]) bad
            ++ [Prompt AskKi]).
Proof.
  intros Hbad Hgood. revert stdout.
  induction Hbad as [| line bad Hline _ IH]; intros stdout; simpl.
  - rewrite Hgood. reflexivity.
  - rewrite Hline, IH. rewrite <- !app_assoc. reflexivity.
Qed.

(** X6.  A duration the first prompt accepts was typed on one of the lines
    read, and it is not less than or equal to zero. *)
Theorem accepted_duration_is_not_nonpositive stdin : forall stdout d rest out,
  input_duration py_float stdin stdout = (Normal d, rest, out) ->
  PrimFloat.leb d 0 = false /\
  exists line, In line stdin /\ py_float line = Normal d.
Proof.
  induction stdin as [| line stdin IH]; intros stdout d rest out; simpl.
  - discriminate.
  - destruct (py_float line) as [v | e] eqn:Hline.
    + destruct (PrimFloat.leb v 0) eqn:Hv.
      * intros H. apply IH in H as (Hd & l & Hin & Hl).
        split; [exact Hd |]. exists l. auto.
      * intros H. inversion H; subst. split; [exact Hv |].
        exists line. auto.
    + destruct e; try discriminate.
      intros H. apply IH in H as (Hd & l & Hin & Hl).
      split; [exact Hd |]. exists l. auto.
Qed.

End prompts.

End ConsoleFacts.

(** * The console layer, further properties *)

Module ConsoleMore.

Import Py Console ConsoleFacts Transcript.
Local Open Scope float_scope.

Lemma split_nonempty c s : split c s <> [].
Proof.
  destruct s as [| a r]; simpl; [discriminate |].
  destruct (Ascii.eqb a c); [discriminate |].
  destruct (split c r); discriminate.
Qed.

Section prompts.

Variable py_float : string -> result float.

(** X14.  A line [a/b] at the Ki prompt whose denominator converts to
    zero (of either sign) raises [ZeroDivisionError]; the prompt loop does
    not catch it, so the program ends there without asking again. *)
Theorem zero_denominator_raises a b x y rest stdout :
  contains slash a = false -> contains slash b = false ->
  py_float a = Normal x -> py_float b = Normal y ->
  PrimFloat.eqb y 0 = true ->
  input_ki py_float ((a ++ String slash b)%string :: rest) stdout =
    (Raised ZeroDivisionError, rest, stdout ++ [Prompt AskKi]).
Proof.
  intros Ha Hb Hx Hy Hy0. simpl. unfold ki_of_input.
  rewrite contains_separator, (split_at_separator _ _ _ Ha),
    (split_no_separator _ _ Hb).
  unfold unpack_two. rewrite Hx, Hy. unfold truediv. rewrite Hy0.
  reflexivity.
Qed.

(** From here on [float] raises nothing but [ValueError], as the builtin
    does on a string. *)
Hypothesis py_float_raises :
  forall line e, py_float line = Raised e -> e = ValueError.

Lemma unpack_two_raises parts e :
  unpack_two py_float parts = Raised e -> e = ValueError.
Proof using py_float_raises.
  unfold unpack_two.
  destruct parts as [| a [| b [| c parts]]]; intros H;
    repeat match type of H with
           | context [match py_float ?l with _ => _ end] =>
               let E := fresh "E" in
               destruct (py_float l) eqn:E;
               try (apply py_float_raises in E; subst)
           end;
    inversion H; subst; reflexivity.
Qed.

Lemma ki_of_input_raises line e :
  ki_of_input py_float line = Raised e ->
  e = ValueError \/ e = ZeroDivisionError.
Proof using py_float_raises.
  unfold ki_of_input. destruct (contains slash line).
  - destruct (unpack_two py_float (split slash line)) as [[num den] | e']
      eqn:E.
    + unfold truediv. destruct (PrimFloat.eqb den 0); intros H; inversion H.
      right. reflexivity.
    + intros H. inversion H; subst. left.
      apply (unpack_two_raises _ _ E).
  - intros H. left. apply (py_float_raises _ _ H).
Qed.

(** X15.  A line with two or more slashes is never taken as a division:
    whatever stands between and after the slashes, its evaluation raises
    [ValueError], so the Ki prompt asks again. *)
Theorem extra_slashes_are_rejected a b c rest stdout :
  contains slash a = false -> contains slash b = false ->
  input_ki py_float ((a ++ String slash (b ++ String slash c))%string :: rest)
    stdout =
  input_ki py_float rest (stdout ++ [Prompt AskKi; Invalid AskKi]).
Proof using py_float_raises.
  intros Ha Hb. simpl.
  assert (E : ki_of_input py_float (a ++ String slash (b ++ String slash c))
              = Raised ValueError).
  { unfold ki_of_input.
    rewrite contains_separator, (split_at_separator _ _ _ Ha),
      (split_at_separator _ _ _ Hb).
    destruct (split slash c) as [| p ps] eqn:Hc;
      [destruct (split_nonempty _ _ Hc) |].
    destruct (unpack_two py_float (a :: b :: p :: ps)) as [[num den] | e]
      eqn:Hu.
    - simpl in Hu.
      destruct (py_float a); [ | discriminate ].
      destruct (py_float b); [ | discriminate ].
      destruct (py_float p); discriminate.
    - rewrite (unpack_two_raises _ _ Hu). reflexivity. }
  rewrite E. reflexivity.
Qed.

Lemma input_duration_raises stdin : forall stdout e rest out,
  input_duration py_float stdin stdout = (Raised e, rest, out) ->
  e = EOFError /\ rest = [].
Proof using py_float_raises.
  induction stdin as [| line stdin IH]; intros stdout e rest out; simpl.
  - intros H. inversion H. auto.
  - destruct (py_float line) as [v | e'] eqn:Hline.
    + destruct (PrimFloat.leb v 0); [apply IH | discriminate].
    + rewrite (py_float_raises _ _ Hline). apply IH.
Qed.

Lemma input_float_raises p stdin : forall stdout e rest out,
  input_float py_float p stdin stdout = (Raised e, rest, out) ->
  e = EOFError /\ rest = [].
Proof using py_float_raises.
  induction stdin as [| line stdin IH]; intros stdout e rest out; simpl.
  - intros H. inversion H. auto.
  - destruct (py_float line) as [v | e'] eqn:Hline; [discriminate |].
    rewrite (py_float_raises _ _ Hline). apply IH.
Qed.

Lemma input_ki_raises stdin : forall stdout e rest out,
  input_ki py_float stdin stdout = (Raised e, rest, out) ->
  (e = EOFError /\ rest = []) \/ e = ZeroDivisionError.
Proof using py_float_raises.
  induction stdin as [| line stdin IH]; intros stdout e rest out; simpl.
  - intros H. inversion H. auto.
  - destruct (ki_of_input py_float line) as [v | e'] eqn:Hline;
      [discriminate |].
    destruct (ki_of_input_raises _ _ Hline) as [-> | ->].
    + apply IH.
    + intros H. inversion H. auto.
Qed.

(** X16.  The console layer ends in one of three ways only: with the four
    values, with [EOFError] once every typed line has been read, or with
    the [ZeroDivisionError] of a division typed at the Ki prompt.  No
    [ValueError] escapes it. *)
Theorem console_ends_three_ways stdin :
  match collect py_float stdin with
  | (Normal _, _, _) => True
  | (Raised e, rest, _) =>
      (e = EOFError /\ rest = []) \/ e = ZeroDivisionError
  end.
Proof using py_float_raises.
  unfold collect.
  destruct (input_duration py_float stdin [Banner]) as [[[d | e] r1] o1] eqn:H1.
  2: { left. apply (input_duration_raises _ _ _ _ _ H1). }
  destruct (input_float py_float AskSetpoint r1 o1) as [[[sp | e] r2] o2] eqn:H2.
  2: { left. apply (input_float_raises _ _ _ _ _ _ H2). }
  destruct (input_float py_float AskKp r2 o2) as [[[kp | e] r3] o3] eqn:H3.
  2: { left. apply (input_float_raises _ _ _ _ _ _ H3). }
  destruct (input_ki py_float r3 o3) as [[[ki | e] r4] o4] eqn:H4.
  - exact I.
  - apply (input_ki_raises _ _ _ _ _ H4).
Qed.

End prompts.

Section duration.

Variable py_float : string -> result float.

(** X17.  At the duration prompt every line that is no number, and every
    number that is zero or negative, is answered by its complaint and a
    new prompt, until a line gives a number that is not [<= 0]; that
    number is returned and the lines after it are left unread. *)
Theorem duration_prompt_repeats_until_valid bad good d rest stdout :
  Forall (duration_rejected py_float) bad ->
  py_float good = Normal d -> PrimFloat.leb d 0 = false ->
  input_duration py_float (bad ++ good :: rest) stdout =
    (Normal d, rest,
     stdout ++ flat_map (duration_complaint py_float) bad
            ++ [Prompt AskDuration]).
Proof.
  intros Hbad Hgood Hd. revert stdout.
  induction Hbad as [| line bad Hline _ IH]; intros stdout; simpl.
  - rewrite Hgood, Hd. reflexivity.
  - unfold duration_complaint at 1.
    destruct Hline as [E | (v & E & Hv)]; rewrite E.
    + rewrite IH. rewrite <- !app_assoc. reflexivity.
    + rewrite Hv, IH. rewrite <- !app_assoc. reflexivity.
Qed.

End duration.

Section program.

Variable py_float : string -> result float.

(** X24.  The duration prompt only refuses what is [<= 0]: a duration typed
    as NaN or as positive infinity is accepted, the other three prompts are
    asked, and the controller then raises before it plots or connects,
    [OverflowError] for infinity and [ValueError] for NaN; nothing catches
    it. *)
Theorem nonfinite_duration_passes_the_prompt w d sp kp ki dv spv kpv kiv rest :
  py_float d = Normal dv ->
  PrimFloat.is_nan dv = true \/
    (PrimFloat.is_infinity dv = true /\ PrimFloat.leb dv 0 = false) ->
  py_float sp = Normal spv -> py_float kp = Normal kpv ->
  ki_of_input py_float ki = Normal kiv ->
  main py_float w (d :: sp :: kp :: ki :: rest) =
    (World.initial,
     Raised (if PrimFloat.is_infinity dv then OverflowError else ValueError)).
Proof.
  intros Hd Hdv Hsp Hkp Hki.
  assert (Hpos : PrimFloat.leb dv 0 = false).
  { destruct Hdv as [Hn | [_ Hp]]; [apply ControllerMore.nan_is_not_nonpositive; exact Hn | exact Hp]. }
  unfold main, collect.
  cbn [input_duration]. rewrite Hd, Hpos.
  cbn [input_float]. rewrite Hsp.
  cbn [input_float]. rewrite Hkp.
  cbn [input_ki]. rewrite Hki.
  apply ControllerMore.run_without_cycle_count.
  destruct Hdv as [Hn | [Hi _]].
  - destruct (ControllerMore.int_of_nan_quotient _ Hn) as [-> ->]. reflexivity.
  - rewrite Hi. apply ControllerMore.int_of_infinite_quotient. exact Hi.
Qed.

End program.

End ConsoleMore.

(** * The indicator test *)

Module LedFacts.

Import Py Led.
Local Open Scope float_scope.

(** Runs the script from the empty trace, one world answer at a time. *)
Ltac led_cases :=
  unfold script, try_except, attempt, blink, report, bind, perform, say, ret;
  repeat (cbn [fst snd app length];
    match goal with
    | |- context [match ?w ?k ?c with Returns _ => _ | Raises _ => _ end] =>
        let b := fresh "b" in let e := fresh "e" in
        destruct (w k c) as [b | e] eqn:?
    | |- context [if is_Exception ?e then _ else _] =>
        destruct (is_Exception e) eqn:?
    | |- context [if ?b then _ else _] => destruct b eqn:?
    end);
  cbn [fst snd app length].

(** Finds which event of an explicit trace a hypothesis [In ev tr] names. *)
Ltac pick_event H :=
  simpl in H;
  repeat (destruct H as [H | H]; [try discriminate H | ]);
  try contradiction.

(** X18.  Whenever the script closes the connection it has done all of its
    work in order: the indicator was switched on, the ten-second wait
    returned, the indicator was switched off, and only then [close] was
    called; the handle is used nowhere else in the run. *)
Theorem close_follows_the_whole_sequence frozen w o :
  In (a_close, o) (fst (script frozen w [])) ->
  exists pre b1 b2 b3 post,
    fst (script frozen w []) =
      pre ++ (a_LED 100, Returns b1) :: (print Waiting, Returns true)
          :: (time_sleep 10.0, Returns b2) :: (print LedOff, Returns true)
          :: (a_LED 0, Returns b3) :: (a_close, o) :: post /\
    Forall (fun ev => uses_handle (fst ev) = false) pre /\
    Forall (fun ev => uses_handle (fst ev) = false) post.
Proof.
  led_cases; intros H; pick_event H;
    inversion H; subst;
    eexists [_; _; _; _; _; _], _, _, _, _;
    (split; [reflexivity | split; repeat constructor]).
Qed.

(** X19.  The script has no [finally]: once any call before [close] raises,
    the connection is never closed, and unless the failing call was the
    switch-off itself the indicator is never switched off either. *)
Theorem exception_skips_switch_off_and_close frozen w c e :
  In (c, Raises e) (fst (script frozen w [])) ->
  closes c = false ->
  c <> input_prompt ->
  existsb (fun ev => closes (fst ev)) (fst (script frozen w [])) = false /\
  (switches_off c = false ->
   existsb (fun ev => switches_off (fst ev)) (fst (script frozen w [])) = false).
Proof.
  led_cases; intros H C P; pick_event H;
    inversion H; subst; try discriminate C; try (now elim P);
    (split; [reflexivity | intros S; try reflexivity; vm_compute in S; discriminate S]).
Qed.

(** X20.  When the calls of the script raise nothing but instances of
    [Exception], and the closing prompt of a frozen build returns, the script
    ends normally whatever fails: the error is printed instead. *)
Theorem script_contains_Exceptions frozen w :
  (forall k c e, w k c = Raises e -> c <> input_prompt -> is_Exception e = true) ->
  (frozen = true -> forall k e, w k input_prompt <> Raises e) ->
  snd (script frozen w []) = Normal tt /\
  forall c e, In (c, Raises e) (fst (script frozen w [])) ->
    In (print (ErrorOccurred e), Returns true) (fst (script frozen w [])).
Proof.
  intros E F. revert E F. led_cases; intros E F;
    repeat match goal with
    | W : w _ input_prompt = Raises _ |- _ =>
        exfalso; exact (F eq_refl _ _ W)
    | W : w _ _ = Raises ?e, X : is_Exception ?e = false |- _ =>
        rewrite (E _ _ _ W) in X by discriminate; discriminate X
    end;
    (split; [reflexivity | intros c' e' H; pick_event H; inversion H; subst;
                           simpl; tauto]).
Qed.

(** X21.  When the device reports that it is not connected the script never
    touches the indicator or closes the handle: it prints that no device was
    found and ends normally. *)
Theorem unconnected_device_is_left_alone frozen w :
  In (a_connected, Returns false) (fst (script frozen w [])) ->
  script frozen w [] =
    ([(print Attempting, Returns true); (tclab_TCLab, w 1%nat tclab_TCLab);
      (a_connected, Returns false); (print CouldNotFind, Returns true)],
     Normal tt).
Proof.
  led_cases; intros H; pick_event H; try (inversion H; fail); reflexivity.
Qed.

End LedFacts.

(** * The program on concrete inputs *)

Module Examples.

Import Py World Run Controller Scenarios ControllerFacts.
Local Open Scope float_scope.

Ltac find_event := repeat first [left; reflexivity | right].

(** C1.  A gain typed as [nan] at the Kp prompt, or finite gains whose
    products overflow to opposite infinities, make the controller command
    NaN: [np.clip] returns a NaN argument as it is, so the commanded value
    is not in [0.0, 100.0]. *)
Theorem nan_output_is_commanded :
  let typed :=
    fst (Console.main Console.float_of_literal steady ["2"; "30"; "nan"; "0"]%string) in
  let overflow :=
    fst (run_pi_controller steady 2.0 30.0 1e308 (-1e308) initial) in
  (exists q, Q1 (vars typed) = [q] /\
             In (lab_Q1 q, Returns 0) (trace typed) /\
             between 0.0 q 100.0 = false) /\
  (exists q, Q1 (vars overflow) = [q] /\
             In (lab_Q1 q, Returns 0) (trace overflow) /\
             between 0.0 q 100.0 = false).
Proof.
  split; exists nan; (split; [vm_compute; reflexivity |]);
    (split; [vm_compute; find_event | reflexivity]).
Qed.

(** C2.  Setpoint 50, Kp 2.0, Ki 0.5, a sensor steady at 25.3: cycles 0 and
    1 accumulate the integral error to 98.8; cycle 2 saturates at 100.0 and
    leaves 98.79999999999998, because adding [error * delta_t] and
    subtracting it again rounds. *)
Theorem saturated_cycle_changes_integral :
  let after duration :=
    vars (fst (run_pi_controller ambient duration 50.0 2.0 0.5 initial)) in
  integral_error (after 4.0) = 98.8 /\
  Q1 (after 6.0) !! 2%nat = Some 100.0 /\
  integral_error (after 6.0) = 98.79999999999998 /\
  PrimFloat.eqb (integral_error (after 6.0)) (integral_error (after 4.0)) = false /\
  commanded 50.0 2.0 0.5 98.8 25.3 = 100.0 /\
  integrated 50.0 2.0 0.5 98.8 25.3 = 98.79999999999998.
Proof. repeat split; vm_compute; reflexivity. Qed.

(** C3, counterexample.  When no device is found the run reports the error
    and returns, and it has neither commanded the heater nor closed a
    connection. *)
Lemma failed_connection_is_not_drained :
  let s := fst (run_pi_controller no_device 20.0 30.0 2.0 0.0 initial) in
  In (tclab_TCLab, Raises (DriverError "No Arduino device found")) (trace s) /\
  existsb (fun ev => drain_call (fst ev)) (trace s) = false.
Proof. split; [vm_compute; find_event | vm_compute; reflexivity]. Qed.

Lemma connected_device_is_drained_witness :
  let tr := trace (fst (run_pi_controller steady 4.0 30.0 2.0 0.0 initial)) in
  In (tclab_TCLab, Returns 0) tr /\
  exists pre o1 post,
    tr = pre ++ (print EnsuringClosed, Returns 0) :: (lab_Q1 0, o1) :: post /\
    Forall no_heater post /\
    (forall u, o1 = Returns u ->
       exists o' post', post = (lab_close, o') :: post').
Proof.
  assert (Hin : In (tclab_TCLab, Returns 0)
                  (trace (fst (run_pi_controller steady 4.0 30.0 2.0 0.0
                                 initial)))).
  { vm_compute; find_event. }
  split; [exact Hin |].
  exact (connected_device_is_drained steady 4.0 30.0 2.0 0.0 (Returns 0) Hin).
Defined.

Lemma unsaturated_cycle_accumulates_witness :
  let s1 := fst (control_step steady 30.0 2.0 0.0 0 connected) in
  exists T1_i,
    T1 (vars s1) !! 0%nat = Some T1_i /\
    integral_error (vars (fst (loop_body steady 30.0 2.0 0.0 0 connected))) =
      integral_error (vars connected) + (30.0 - T1_i) * delta_t.
Proof.
  refine (unsaturated_cycle_accumulates steady 30.0 2.0 0.0 0 connected
            (fst (control_step steady 30.0 2.0 0.0 0 connected)) 10.0 _ _ _);
    vm_compute; reflexivity.
Defined.

Lemma completed_run_has_floor_cycles_witness :
  exists n : nat,
    delta_t = 2.0 /\
    floor_of_float (5.0 / delta_t) = Normal (Z.of_nat n) /\
    cycles_completed
      (trace (fst (run_pi_controller steady 5.0 30.0 2.0 0.0 initial))) = n.
Proof.
  destruct (completed_run_has_floor_cycles steady 5.0 30.0 2.0 0.0
              (fst (run_pi_controller steady 5.0 30.0 2.0 0.0 initial)))
    as (n & H1 & H2 & H3 & _);
    [ reflexivity | vm_compute; reflexivity | vm_compute; reflexivity | ].
  exists n. auto.
Defined.

(** C6.  The device is unplugged as cycle 3 of 10 reads the sensor: three
    cycles ran to their end, no command is sent for cycle 3, the error is
    reported, the force-to-zero command of the cleanup raises in its turn,
    and [lab.close()] is never called. *)
Theorem unplugged_device_is_not_closed :
  let r := run_pi_controller unplugged 20.0 30.0 2.0 0.0 initial in
  snd r = Normal tt /\
  cycles_completed (trace (fst r)) = 3%nat /\
  Q1 (vars (fst r)) = [10.0; 10.0; 10.0; 0.0; 0.0; 0.0; 0.0; 0.0; 0.0; 0.0] /\
  skipn 59 (trace (fst r)) =
    [ (lab_T1, Raises (DriverError "device disconnected"));
      (print (ErrorOccurred (DriverError "device disconnected")), Returns 0);
      (print EnsuringClosed, Returns 0);
      (lab_Q1 0, Raises (DriverError "device disconnected"));
      (plt "plt.ioff", Returns 0); (plt "plt.show", Returns 0) ] /\
  existsb (fun ev => match fst ev with lab_close => true | _ => false end)
    (trace (fst r)) = false.
Proof. repeat split; vm_compute; reflexivity. Qed.

(** C7, counterexample.  The specification asks for a sleep of the period
    less the processing time of the cycle, and of zero when the cycle took
    longer than the period.  The first cycle of a run sleeps 1.95 s: were
    the sensor read to take 0.1 s the specification would ask for 1.85 s,
    and were the rendering to take 3 s it would ask for no sleep at all. *)
Lemma sleep_ignores_processing_time :
  let cycle := trace (fst (loop_body steady 30.0 2.0 0.0 0 connected)) in
  exists work,
    cycle = work ++ [(time_sleep 1.95, Returns 0)] /\
    Timing.remaining_period_of brisk work = 1.85 /\
    Timing.remaining_period_of sluggish work = 0.0 /\
    ~ Timing.sleeps_for_remaining_period brisk cycle /\
    ~ Timing.sleeps_for_remaining_period sluggish cycle.
Proof.
  cbv zeta.
  exists (removelast (trace (fst (loop_body steady 30.0 2.0 0.0 0 connected)))).
  assert (E : trace (fst (loop_body steady 30.0 2.0 0.0 0 connected)) =
              removelast (trace (fst (loop_body steady 30.0 2.0 0.0 0
                                        connected)))
                ++ [(time_sleep 1.95, Returns 0)]).
  { vm_compute. reflexivity. }
  split; [exact E |].
  split; [vm_compute; reflexivity |].
  split; [vm_compute; reflexivity |].
  split; intros H; specialize (H _ _ _ E);
    apply (f_equal (fun x => PrimFloat.eqb x 1.95)) in H;
    vm_compute in H; discriminate H.
Qed.

Lemma sleep_is_period_less_pause_witness :
  (exists work u v,
     trace (fst (loop_body steady 30.0 2.0 0.0 0 connected)) =
       trace connected ++ work ++ [(plt_pause 0.05, Returns u);
                                   (time_sleep (delta_t - 0.05), Returns v)] /\
     Forall no_wait work) /\
  (let tr := trace (fst (run_pi_controller steady 2.0 30.0 2.0 0.0 initial)) in
   nth_error tr 38 = Some (time_sleep 1.95, Returns 0) /\
   1.95 = delta_t - 0.05 /\ 1.95 = 1.95 /\ PrimFloat.ltb 0 1.95 = true /\
   exists pre' u, firstn 38 tr = pre' ++ [(plt_pause 0.05, Returns u)]).
Proof.
  destruct (sleep_is_period_less_pause steady 2.0 30.0 2.0 0.0)
    as (Hcycle & Hrun & _).
  split.
  - apply (Hcycle 0%nat connected
             (fst (loop_body steady 30.0 2.0 0.0 0 connected))).
    vm_compute. reflexivity.
  - split; [vm_compute; reflexivity |].
    apply (Hrun (firstn 38 (trace (fst (run_pi_controller steady 2.0 30.0 2.0
                                          0.0 initial))))
             1.95 (Returns 0)
             (skipn 39 (trace (fst (run_pi_controller steady 2.0 30.0 2.0
                                      0.0 initial))))).
    vm_compute. reflexivity.
Defined.

(** C8.  The line [1/0] typed at the Ki prompt ends the program with
    [ZeroDivisionError]: the prompt is not repeated and the controller is
    not run. *)
Theorem zero_denominator_ends_program :
  Console.collect Console.float_of_literal ["10"; "30"; "2"; "1/0"; "0.027"]%string =
    (Raised ZeroDivisionError, ["0.027"]%string,
     [Console.Banner; Console.Prompt Console.AskDuration;
      Console.Prompt Console.AskSetpoint; Console.Prompt Console.AskKp;
      Console.Prompt Console.AskKi]) /\
  Console.main Console.float_of_literal steady
    ["10"; "30"; "2"; "1/0"; "0.027"]%string = (initial, Raised ZeroDivisionError).
Proof. split; vm_compute; reflexivity. Qed.

Lemma release_swallows_and_skips_close_witness :
  snd (release heater_stuck connected) = Normal tt /\
  trace (fst (release heater_stuck connected)) =
    [(lab_Q1 0, Raises (DriverError "write failed"))].
Proof.
  destruct (release_swallows_and_skips_close heater_stuck connected TCLab
              eq_refl) as (H1 & H2 & _).
  split; [exact H1 |].
  exact (H2 (DriverError "write failed") eq_refl).
Defined.




Lemma commanded_output_is_clamped_witness :
  let s1 := fst (control_step steady 30.0 2.0 0.0 0 connected) in
  exists v q u,
    T1 (vars s1) !! 0%nat = Some v /\
    Q1 (vars s1) !! 0%nat = Some q /\
    q = Np.clip (OP_bias + 2.0 * (30.0 - v) + 0.0 * (0.0 + (30.0 - v) * delta_t))
          0.0 100.0 /\
    trace s1 = [(lab_T1, Returns v); (lab_Q1 q, Returns u)].
Proof.
  destruct (commanded_output_is_clamped steady 30.0 2.0 0.0 0 connected
              (fst (control_step steady 30.0 2.0 0.0 0 connected)))
    as (v & q & u & H1 & H2 & H3 & H4 & _); [vm_compute; reflexivity |].
  exists v, q, u. auto.
Defined.

Lemma saturated_cycle_adds_then_subtracts_witness :
  let s1 := fst (control_step steady 30.0 50.0 0.0 0 connected) in
  exists T1_i,
    T1 (vars s1) !! 0%nat = Some T1_i /\
    integral_error (vars (fst (loop_body steady 30.0 50.0 0.0 0 connected))) =
      0.0 + (30.0 - T1_i) * delta_t - (30.0 - T1_i) * delta_t.
Proof.
  refine (saturated_cycle_adds_then_subtracts steady 30.0 50.0 0.0 0 connected
            (fst (control_step steady 30.0 50.0 0.0 0 connected)) 100.0 _ _ _);
    vm_compute; reflexivity.
Defined.

Lemma failed_read_ends_loop_witness :
  for_each [0%nat; 1%nat] (loop_body sensor_dead 30.0 2.0 0.0) connected =
    ({| vars := with_array a_t [0.0 * delta_t] (vars connected);
        trace := [(lab_T1, Raises (DriverError "read failed"))] |},
     Raised (DriverError "read failed")).
Proof.
  exact (failed_read_ends_loop sensor_dead 30.0 2.0 0.0 0 [1%nat] connected
           (DriverError "read failed") 0.0 eq_refl (Nat.lt_0_succ 0) eq_refl).
Defined.

Lemma ki_of_division_witness :
  Console.ki_of_input Console.float_of_literal "4/150" = Normal (4.0 / 150.0).
Proof.
  exact (ConsoleFacts.ki_of_division Console.float_of_literal "4" "150"
           4.0 150.0 eq_refl eq_refl eq_refl eq_refl eq_refl).
Defined.

Lemma ki_prompt_repeats_until_valid_witness :
  Console.input_ki Console.float_of_literal
    ["x"; "1/2/3"; "0.027"; "next"]%string [] =
    (Normal 0.027, ["next"]%string,
     [Console.Prompt Console.AskKi; Console.Invalid Console.AskKi;
      Console.Prompt Console.AskKi; Console.Invalid Console.AskKi;
      Console.Prompt Console.AskKi]).
Proof.
  refine (ConsoleFacts.ki_prompt_repeats_until_valid Console.float_of_literal
            ["x"; "1/2/3"]%string "0.027" 0.027 ["next"]%string [] _ _).
  - repeat constructor.
  - vm_compute. reflexivity.
Defined.

Lemma accepted_duration_is_not_nonpositive_witness :
  PrimFloat.leb 10.0 0 = false /\
  exists line, In line ["abc"; "-5"; "10"]%string /\
               Console.float_of_literal line = Normal 10.0.
Proof.
  refine (ConsoleFacts.accepted_duration_is_not_nonpositive
            Console.float_of_literal ["abc"; "-5"; "10"]%string
            [] 10.0 [] _ _).
  vm_compute. reflexivity.
Defined.

Lemma second_heater_stays_off_witness :
  In (lab_LED 100.0, Returns 0)
     (trace (fst (run_pi_controller unplugged 20.0 30.0 2.0 0.0 initial))) /\
  100.0 = 100.0.
Proof.
  assert (Hin : In (lab_LED 100.0, Returns 0)
                  (trace (fst (run_pi_controller unplugged 20.0 30.0 2.0 0.0
                                 initial)))).
  { vm_compute; find_event. }
  split; [exact Hin |].
  exact (ControllerMore.second_heater_stays_off unplugged 20.0 30.0 2.0 0.0
           (lab_LED 100.0) (Returns 0) Hin).
Defined.

Lemma device_calls_follow_connection_witness :
  let tr := trace (fst (run_pi_controller steady 2.0 30.0 2.0 0.0 initial)) in
  nth_error tr 26 = Some (lab_T1, Returns 25.0) /\
  exists v, In (tclab_TCLab, Returns v) (firstn 26 tr).
Proof.
  split; [vm_compute; reflexivity |].
  refine (ControllerMore.device_calls_follow_connection steady 2.0 30.0 2.0 0.0
            (firstn 26 (trace (fst (run_pi_controller steady 2.0 30.0 2.0 0.0
                                      initial))))
            lab_T1 (Returns 25.0)
            (skipn 27 (trace (fst (run_pi_controller steady 2.0 30.0 2.0 0.0
                                     initial))))
            _ eq_refl _).
  - vm_compute. reflexivity.
  - discriminate.
Defined.

Lemma at_most_one_connection_attempt_witness :
  let tr := trace (fst (run_pi_controller no_device 2.0 30.0 2.0 0.0 initial)) in
  nth_error tr 21 =
    Some (tclab_TCLab, Raises (DriverError "No Arduino device found")) /\
  Forall no_connect (firstn 21 tr) /\ Forall no_connect (skipn 22 tr).
Proof.
  split; [vm_compute; reflexivity |].
  refine (ControllerMore.at_most_one_connection_attempt no_device 2.0 30.0 2.0
            0.0
            (firstn 21 (trace (fst (run_pi_controller no_device 2.0 30.0 2.0
                                      0.0 initial))))
            (Raises (DriverError "No Arduino device found"))
            (skipn 22 (trace (fst (run_pi_controller no_device 2.0 30.0 2.0
                                     0.0 initial))))
            _).
  vm_compute. reflexivity.
Defined.

Lemma freeze_is_decided_by_raw_output_witness :
  let s1 := fst (control_step steady 30.0 2.0 0.5 0 connected) in
  exists v,
    T1 (vars s1) !! 0%nat = Some v /\
    integral_error (vars s1) =
      if strictly_between 0.0
           (OP_bias + 2.0 * (30.0 - v) + 0.5 * (0.0 + (30.0 - v) * delta_t))
           100.0
      then 0.0 + (30.0 - v) * delta_t
      else 0.0 + (30.0 - v) * delta_t - (30.0 - v) * delta_t.
Proof.
  refine (ControllerMore.freeze_is_decided_by_raw_output steady 30.0 2.0 0.5 0
            connected (fst (control_step steady 30.0 2.0 0.5 0 connected)) _).
  vm_compute. reflexivity.
Defined.

Lemma one_read_and_one_command_per_cycle_witness :
  let tr := trace (fst (run_pi_controller steady 4.0 30.0 2.0 0.0 initial)) in
  cycles_completed tr = 2%nat /\
  Tally.tally Tally.sensor_read tr = 3%nat /\
  Tally.tally Tally.heater_command tr = 4%nat.
Proof.
  split; [vm_compute; reflexivity |].
  refine (ControllerMore.one_read_and_one_command_per_cycle steady 4.0 30.0 2.0
            0.0 (fst (run_pi_controller steady 4.0 30.0 2.0 0.0 initial)) _ _);
    vm_compute; reflexivity.
Defined.

Lemma unusable_duration_raises_before_any_call_witness :
  run_pi_controller steady nan 30.0 2.0 0.0 initial =
    (initial, Raised ValueError) /\
  run_pi_controller steady infinity 30.0 2.0 0.0 initial =
    (initial, Raised OverflowError) /\
  run_pi_controller steady (-4.0) 30.0 2.0 0.0 initial =
    (initial, Raised ValueError).
Proof.
  split; [| split].
  - exact (ControllerMore.unusable_duration_raises_before_any_call steady nan
             30.0 2.0 0.0 (or_introl eq_refl)).
  - exact (ControllerMore.unusable_duration_raises_before_any_call steady
             infinity 30.0 2.0 0.0 (or_intror (or_introl eq_refl))).
  - refine (ControllerMore.unusable_duration_raises_before_any_call steady
              (-4.0) 30.0 2.0 0.0 (or_intror (or_intror _))).
    exists (-2)%Z. split; [vm_compute; reflexivity | reflexivity].
Defined.

Lemma saturated_cycle_keeps_zero_integral_witness :
  Q1 (vars (fst (control_step steady 30.0 50.0 0.0 0 connected))) = [100.0] /\
  integral_error (vars (fst (control_step steady 30.0 50.0 0.0 0 connected))) =
    0.0.
Proof.
  split; [vm_compute; reflexivity |].
  refine (ControllerMore.saturated_cycle_keeps_zero_integral steady 30.0 50.0
            0.0 0 connected
            (fst (control_step steady 30.0 50.0 0.0 0 connected)) 25.0 100.0
            _ _ _ _ _ _);
    vm_compute; reflexivity.
Defined.

Lemma zero_denominator_raises_witness :
  Console.input_ki Console.float_of_literal ["1/0"; "0.027"]%string [] =
    (Raised ZeroDivisionError, ["0.027"]%string,
     [Console.Prompt Console.AskKi]).
Proof.
  exact (ConsoleMore.zero_denominator_raises Console.float_of_literal "1" "0"
           1.0 0.0 ["0.027"]%string [] eq_refl eq_refl eq_refl eq_refl eq_refl).
Defined.

Lemma float_of_literal_raises line e :
  Console.float_of_literal line = Raised e -> e = ValueError.
Proof.
  assert (U : forall s e', Console.unsigned_literal s = Raised e' ->
                           e' = ValueError).
  { intros s0 e'. unfold Console.unsigned_literal.
    repeat match goal with
           | |- context [if ?b then _ else _] => destruct b
           | |- context [match ?x with _ => _ end] => destruct x
           end; congruence. }
  unfold Console.float_of_literal.
  destruct line as [| c r]; [apply U |].
  destruct (Ascii.eqb c "-"%char) eqn:Em.
  - apply Ascii.eqb_eq in Em. subst c.
    destruct (Console.unsigned_literal r) eqn:Er; [discriminate |].
    intros H. inversion H. subst. eapply U. exact Er.
  - destruct (Ascii.eqb c "+"%char) eqn:Ep.
    + apply Ascii.eqb_eq in Ep. subst c. apply U.
    + intros H. apply (U (String c r)). rewrite <- H.
      destruct c as [[] [] [] [] [] [] [] []];
        try reflexivity; discriminate.
Qed.

Lemma extra_slashes_are_rejected_witness :
  Console.input_ki Console.float_of_literal ["1/2/3"; "0.5"]%string [] =
    (Normal 0.5, [],
     [Console.Prompt Console.AskKi; Console.Invalid Console.AskKi;
      Console.Prompt Console.AskKi]).
Proof.
  refine (eq_trans
            (ConsoleMore.extra_slashes_are_rejected Console.float_of_literal
               float_of_literal_raises "1" "2" "3" ["0.5"]%string []
               eq_refl eq_refl) _).
  vm_compute. reflexivity.
Defined.

Lemma console_ends_three_ways_witness :
  (EOFError = EOFError /\ @nil string = []) \/ EOFError = ZeroDivisionError.
Proof.
  exact (ConsoleMore.console_ends_three_ways Console.float_of_literal
           float_of_literal_raises ["10"; "30"; "2"]%string).
Defined.

Lemma duration_prompt_repeats_until_valid_witness :
  Console.input_duration Console.float_of_literal
    ["abc"; "-5"; "0"; "10"; "x"]%string [] =
    (Normal 10.0, ["x"]%string,
     [Console.Prompt Console.AskDuration; Console.Invalid Console.AskDuration;
      Console.Prompt Console.AskDuration; Console.MustBePositive;
      Console.Prompt Console.AskDuration; Console.MustBePositive;
      Console.Prompt Console.AskDuration]).
Proof.
  refine (ConsoleMore.duration_prompt_repeats_until_valid
            Console.float_of_literal ["abc"; "-5"; "0"]%string "10" 10.0
            ["x"]%string [] _ eq_refl eq_refl).
  constructor; [left; reflexivity |].
  constructor; [right; exists (-5.0); split; reflexivity |].
  constructor; [right; exists 0.0; split; reflexivity |].
  constructor.
Defined.

Lemma close_follows_the_whole_sequence_witness :
  exists pre b1 b2 b3 post,
    fst (Led.script false Led.working []) =
      pre ++ (Led.a_LED 100, Led.Returns b1)
          :: (Led.print Led.Waiting, Led.Returns true)
          :: (Led.time_sleep 10.0, Led.Returns b2)
          :: (Led.print Led.LedOff, Led.Returns true)
          :: (Led.a_LED 0, Led.Returns b3)
          :: (Led.a_close, Led.Returns true) :: post /\
    Forall (fun ev => Led.uses_handle (fst ev) = false) pre /\
    Forall (fun ev => Led.uses_handle (fst ev) = false) post.
Proof.
  refine (LedFacts.close_follows_the_whole_sequence false Led.working
            (Led.Returns true) _).
  vm_compute; find_event.
Defined.

Lemma exception_skips_switch_off_and_close_witness :
  let tr := fst (Led.script true (Led.wait_fails KeyboardInterrupt) []) in
  In (Led.a_LED 100, Led.Returns true) tr /\
  existsb (fun ev => Led.closes (fst ev)) tr = false /\
  existsb (fun ev => Led.switches_off (fst ev)) tr = false.
Proof.
  split; [vm_compute; find_event |].
  destruct (LedFacts.exception_skips_switch_off_and_close true
              (Led.wait_fails KeyboardInterrupt) (Led.time_sleep 10.0)
              KeyboardInterrupt) as [H1 H2].
  - vm_compute; find_event.
  - reflexivity.
  - discriminate.
  - split; [exact H1 | exact (H2 eq_refl)].
Defined.

Lemma wait_fails_raises e k c e' :
  Led.wait_fails e k c = Led.Raises e' -> c <> Led.input_prompt /\ e' = e.
Proof.
  destruct c; try discriminate. intros H. inversion H. split; [discriminate | reflexivity].
Qed.

Lemma script_contains_Exceptions_witness :
  let r := Led.script true (Led.wait_fails ValueError) [] in
  snd r = Normal tt /\
  In (Led.print (Led.ErrorOccurred ValueError), Led.Returns true) (fst r).
Proof.
  destruct (LedFacts.script_contains_Exceptions true
              (Led.wait_fails ValueError)) as [H1 H2].
  - intros k c e' H _. apply wait_fails_raises in H. destruct H as [_ ->].
    reflexivity.
  - intros _ k e' H. apply wait_fails_raises in H. destruct H as [H _].
    apply H. reflexivity.
  - split; [exact H1 |].
    apply (H2 (Led.time_sleep 10.0)). vm_compute; find_event.
Defined.

Lemma unconnected_device_is_left_alone_witness :
  Led.script false Led.not_connected [] =
    ([(Led.print Led.Attempting, Led.Returns true);
      (Led.tclab_TCLab, Led.Returns true);
      (Led.a_connected, Led.Returns false);
      (Led.print Led.CouldNotFind, Led.Returns true)],
     Normal tt).
Proof.
  refine (LedFacts.unconnected_device_is_left_alone false Led.not_connected _).
  vm_compute; find_event.
Defined.

Lemma plotted_lines_are_aligned_witness :
  In (set_data "line1" [0.0] [25.0], Returns 0)
     (trace (fst (run_pi_controller steady 2.0 30.0 2.0 0.0 initial))) /\
  length [0.0] = length [25.0].
Proof.
  assert (Hin : In (set_data "line1" [0.0] [25.0], Returns 0)
                  (trace (fst (run_pi_controller steady 2.0 30.0 2.0 0.0
                                 initial)))).
  { vm_compute; find_event. }
  split; [exact Hin |].
  exact (ControllerMore.plotted_lines_are_aligned steady 2.0 30.0 2.0 0.0
           "line1" [0.0] [25.0] (Returns 0) Hin).
Defined.

Lemma axis_is_rescaled_only_for_a_reading_outside_witness :
  let s := fst (control_step hot 30.0 2.0 0.0 0 connected) in
  In (ax1_set_ylim 40.0 50.0, Returns 0) (trace (fst (plot_step hot 0 s))) /\
  exists evs,
    trace (fst (plot_step hot 0 s)) = trace s ++ evs /\
    forall a b o, In (ax1_set_ylim a b, o) evs ->
      ((exists hi, In (ax1_get_ylim 1, Returns hi) evs /\ (hi <? 45.0) = true) \/
       (exists lo, In (ax1_get_ylim 0, Returns lo) evs /\ (45.0 <? lo) = true)) /\
      exists lo' hi',
        Np.amin (take 1 (T1 (vars s))) = Normal lo' /\
        Np.amax (take 1 (T1 (vars s))) = Normal hi' /\
        a = lo' - 5 /\ b = hi' + 5.
Proof.
  split; [vm_compute; find_event |].
  exact (ControllerMore.axis_is_rescaled_only_for_a_reading_outside hot 0
           (fst (control_step hot 30.0 2.0 0.0 0 connected)) 45.0 eq_refl).
Defined.

Lemma nonfinite_duration_passes_the_prompt_witness :
  Console.main Console.float_of_literal steady ["inf"; "30"; "2"; "0"]%string =
    (initial, Raised OverflowError) /\
  Console.main Console.float_of_literal steady ["nan"; "30"; "2"; "0"]%string =
    (initial, Raised ValueError).
Proof.
  split.
  - exact (ConsoleMore.nonfinite_duration_passes_the_prompt
             Console.float_of_literal steady "inf" "30" "2" "0" infinity 30.0
             2.0 0.0 [] eq_refl (or_intror (conj eq_refl eq_refl)) eq_refl
             eq_refl eq_refl).
  - exact (ConsoleMore.nonfinite_duration_passes_the_prompt
             Console.float_of_literal steady "nan" "30" "2" "0" nan 30.0 2.0
             0.0 [] eq_refl (or_introl eq_refl) eq_refl eq_refl eq_refl).
Defined.

End Examples.
